(** * kfit: curve-fitting helpers of SchusterLab/Common (src/kfit.py)

    A shallow embedding of the fitting library.  Python floats are read as
    real numbers ([R]); numpy arrays and Python lists of floats as [list R].
    Exceptions are values of [result]; console output, plot requests and
    the entries into the scipy optimizers are recorded, in order, in an
    event log carried by the monad [M].  The two scipy optimizers
    ([optimize.leastsq], [optimize.curve_fit]) are external: every
    definition that reaches them takes them as section variables.

    Where the code's result can leave the reals ([get_rsquare], the
    standard errors of [fitbetter]) values are [npfloat]: a real, a signed
    infinity or nan.  The lineshape models are read over [R], where a
    quotient is a total function: the value the model gives at a zero
    divisor is not the program's (a Python float division raises
    [ZeroDivisionError], a numpy one yields an infinity or nan), so every
    statement that evaluates a model carries the hypothesis that the
    widths it divides by are non-zero.  [kinfunc], whose divisor depends
    on the sample point, has the raising path written out. *)

From Stdlib Require Import String.
From Stdlib Require Import Reals Lra Lia List ZArith Bool Arith Sorted Permutation.
Import ListNotations.
Open Scope R_scope.

(* ================================================================= *)
(** * Python runtime: exceptions, results, the event log              *)
(* ================================================================= *)

Inductive pyexn : Set :=
| IndexError
| TypeError
| ValueError
| NameError
| UnboundLocalError
| ZeroDivisionError.

Inductive result (A : Type) : Type :=
| Ok (a : A)
| Raise (e : pyexn).
Arguments Ok {A} a.
Arguments Raise {A} e.

Definition rbind {A B} (r : result A) (k : A -> result B) : result B :=
  match r with
  | Ok a => k a
  | Raise e => Raise e
  end.

Declare Scope res_scope.
Delimit Scope res_scope with res.
Notation "x <- r ;; k" := (rbind r (fun x => k))
  (at level 61, r at next level, right associativity) : res_scope.

(* ================================================================= *)
(** * numpy / builtin helpers                                         *)
(* ================================================================= *)

(** [l[i]] for a non-negative index. *)
Definition getitem {A} (l : list A) (i : nat) : result A :=
  match nth_error l i with
  | Some a => Ok a
  | None => Raise IndexError
  end.

(** [l[-1]]. *)
Definition getlast {A} (l : list A) : result A :=
  match l with
  | [] => Raise IndexError
  | a :: l' => Ok (last l' a)
  end.

(** [l[i:j]] for non-negative [i], [j]; empty when [j <= i]. *)
Definition slice {A} (i j : nat) (l : list A) : list A :=
  firstn (j - i) (skipn i l).

(** [np.searchsorted(a, v)] with the default [side='left']: the binary
    search numpy runs over [a], comparing with [<].  Each key is searched
    from the full range; numpy starts a later key from the bounds the
    previous one left, which gives the same index on ascending [a], the
    only data the statements below apply it to. *)
Section Searchsorted.
Context {A : Type} (ltb : A -> A -> bool).

Fixpoint bisect_left (fuel : nat) (a : list A) (v : A) (lo hi : nat) : nat :=
  match fuel with
  | O => lo
  | S fuel' =>
      if (lo <? hi)%nat then
        let mid := (lo + (hi - lo) / 2)%nat in
        match nth_error a mid with
        | Some m =>
            if ltb m v then bisect_left fuel' a v (S mid) hi
            else bisect_left fuel' a v lo mid
        | None => lo
        end
      else lo
  end.

Definition searchsorted (a : list A) (v : A) : nat :=
  bisect_left (length a) a v 0 (length a).

(** [argselectdomain(xdata, domain)] *)
Definition argselectdomain (xdata : list A) (domain : A * A) : nat * nat :=
  let ind := (searchsorted xdata (fst domain), searchsorted xdata (snd domain)) in
  (fst ind, snd ind).

(** [selectdomain(xdata, ydata, domain)] *)
Definition selectdomain {B} (xdata : list A) (ydata : list B) (domain : A * A)
  : list A * list B :=
  let ind := (searchsorted xdata (fst domain), searchsorted xdata (snd domain)) in
  (slice (fst ind) (snd ind) xdata, slice (fst ind) (snd ind) ydata).

(** Entries below [v], and ascending order, as the comparison [ltb]
    sees them. *)
Definition below (v : A) (m : A) : bool := ltb m v.

Definition sorted_by (l : list A) : Prop :=
  StronglySorted (fun a b => ltb b a = false) l.
End Searchsorted.

Definition Rltb (a b : R) : bool := if Rlt_dec a b then true else false.

(** The instance the fit wrappers use: float x-data. *)
Definition selectdomainR (xdata ydata : list R) (domain : R * R) : list R * list R :=
  selectdomain Rltb xdata ydata domain.

(** Membership of the half-open range [lo <= v < hi], as the two
    comparisons of the search decide it. *)
Definition in_domain (domain : R * R) (v : R) : bool :=
  negb (Rltb v (fst domain)) && Rltb v (snd domain).

(** [np.take(l, inds)]: the entries at the given positions. *)
Fixpoint np_take {A} (l : list A) (inds : list nat) : result (list A) :=
  match inds with
  | [] => Ok []
  | i :: inds' => (a <- getitem l i ;; r <- np_take l inds' ;; Ok (a :: r))%res
  end.

(** [np.argsort(l)]: the positions of [l] in ascending order of their
    values, here by insertion with equal values kept in input order
    (numpy leaves the order of ties open). *)
Fixpoint insert_by_value (v : nat * R) (s : list (nat * R)) : list (nat * R) :=
  match s with
  | [] => [v]
  | u :: s' =>
      if Rle_dec (snd v) (snd u) then v :: u :: s'
      else u :: insert_by_value v s'
  end.

Definition sort_indexed (l : list (nat * R)) : list (nat * R) :=
  fold_right insert_by_value [] l.

Definition argsort (l : list R) : list nat :=
  map fst (sort_indexed (combine (seq 0 (length l)) l)).

(** [zipsort(xdata, ydata)] *)
Definition zipsort (xdata ydata : list R) : result (list R * list R) :=
  let inds := argsort xdata in
  (xs <- np_take xdata inds ;; ys <- np_take ydata inds ;; Ok (xs, ys))%res.

(* ================================================================= *)
(** * Floats outside the finite range                                 *)
(* ================================================================= *)

(** A float64 read as an extended real: a finite real, a signed infinity
    or nan.  Rounding, overflow and the sign of zero are not modelled; a
    zero divisor is read as [+0]. *)
Inductive npfloat : Type :=
| Finite (r : R)
| PosInf
| NegInf
| NaN.

Definition fneg (a : npfloat) : npfloat :=
  match a with
  | Finite r => Finite (- r)
  | PosInf => NegInf
  | NegInf => PosInf
  | NaN => NaN
  end.

Definition fadd (a b : npfloat) : npfloat :=
  match a, b with
  | NaN, _ | _, NaN => NaN
  | Finite r, Finite s => Finite (r + s)
  | PosInf, NegInf | NegInf, PosInf => NaN
  | PosInf, _ | _, PosInf => PosInf
  | NegInf, _ | _, NegInf => NegInf
  end.

Definition fsub (a b : npfloat) : npfloat := fadd a (fneg b).

(** The infinity with the sign of [r], nan for [r = 0]. *)
Definition signed_inf (r : R) : npfloat :=
  if Rlt_dec 0 r then PosInf else if Rlt_dec r 0 then NegInf else NaN.

Definition fmul (a b : npfloat) : npfloat :=
  match a, b with
  | NaN, _ | _, NaN => NaN
  | Finite r, Finite s => Finite (r * s)
  | PosInf, Finite s | Finite s, PosInf => signed_inf s
  | NegInf, Finite s | Finite s, NegInf => signed_inf (- s)
  | PosInf, PosInf | NegInf, NegInf => PosInf
  | PosInf, NegInf | NegInf, PosInf => NegInf
  end.

(** numpy float division: a zero divisor does not raise. *)
Definition fdiv (a b : npfloat) : npfloat :=
  match a, b with
  | NaN, _ | _, NaN => NaN
  | Finite r, Finite s =>
      if Req_dec_T s 0 then signed_inf r else Finite (r / s)
  | Finite _, (PosInf | NegInf) => Finite 0
  | PosInf, Finite s => if Rlt_dec s 0 then NegInf else PosInf
  | NegInf, Finite s => if Rlt_dec s 0 then PosInf else NegInf
  | (PosInf | NegInf), (PosInf | NegInf) => NaN
  end.

(** [a ** 2] *)
Definition fsquare (a : npfloat) : npfloat := fmul a a.

(** [np.sqrt] on one entry: nan (with a warning) below zero. *)
Definition np_sqrt (a : npfloat) : npfloat :=
  match a with
  | Finite r => if Rlt_dec r 0 then NaN else Finite (sqrt r)
  | PosInf => PosInf
  | NegInf => NaN
  | NaN => NaN
  end.

(** [np.sum] and [np.mean] of a 1-d float array; the mean of an empty
    array is [0/0]. *)
Definition np_sum (l : list npfloat) : npfloat := fold_left fadd l (Finite 0).

Definition np_mean (l : list npfloat) : npfloat :=
  fdiv (np_sum l) (Finite (INR (length l))).

(** [a - b] on 1-d arrays, with numpy's broadcasting of a length-1
    operand; other length mismatches raise. *)
Definition np_broadcast2 {A B C} (f : A -> B -> C) (a : list A) (b : list B)
  : result (list C) :=
  if (length a =? length b)%nat then Ok (map (fun ab => f (fst ab) (snd ab)) (combine a b))
  else match a, b with
       | [u], _ => Ok (map (f u) b)
       | _, [v] => Ok (map (fun x => f x v) a)
       | _, _ => Raise ValueError
       end.

(* ================================================================= *)
(** * GoodnessOfFit                                                   *)
(* ================================================================= *)

(** [get_rsquare(ydata, ydatafit)] *)
Definition get_rsquare (ydata ydatafit : list npfloat) : result npfloat :=
  let ybar := np_mean ydata in
  let total_sum_of_squares := np_sum (map (fun y => fsquare (fsub y ybar)) ydata) in
  (diff <- np_broadcast2 fsub ydata ydatafit ;;
   let residual_sum_of_squares := np_sum (map fsquare diff) in
   Ok (fsub (Finite 1) (fdiv residual_sum_of_squares total_sum_of_squares)))%res.

(* ================================================================= *)
(** * Values a lineshape works on: a scalar or a 1-d array            *)
(* ================================================================= *)

Inductive nd : Type :=
| Scalar (r : R)
| Arr (l : list R).
Coercion Scalar : R >-> nd.

Definition nd_map (f : R -> R) (a : nd) : nd :=
  match a with
  | Scalar r => Scalar (f r)
  | Arr l => Arr (map f l)
  end.

(** Elementwise binary operation with scalar broadcasting.  Inside a
    lineshape both array operands derive from the same [x], so their
    shapes agree. *)
Definition nd_map2 (f : R -> R -> R) (a b : nd) : nd :=
  match a, b with
  | Scalar r, Scalar s => Scalar (f r s)
  | Scalar r, Arr l => Arr (map (f r) l)
  | Arr l, Scalar s => Arr (map (fun v => f v s) l)
  | Arr l, Arr l' => Arr (map (fun uv => f (fst uv) (snd uv)) (combine l l'))
  end.

(** [math.e ** y] and [np.e ** y]. *)
Definition e_pow (y : R) : R := Rpower (exp 1) y.

Definition nd_add := nd_map2 Rplus.
Definition nd_sub := nd_map2 Rminus.
Definition nd_mul := nd_map2 Rmult.
Definition nd_div := nd_map2 Rdiv.
Definition nd_pow (a : nd) (n : nat) : nd := nd_map (fun r => r ^ n) a.
Definition nd_e_pow : nd -> nd := nd_map e_pow.
Definition nd_sin : nd -> nd := nd_map sin.

Declare Scope nd_scope.
Delimit Scope nd_scope with nd.
Bind Scope nd_scope with nd.
Infix "+" := nd_add : nd_scope.
Infix "-" := nd_sub : nd_scope.
Infix "*" := nd_mul : nd_scope.
Infix "/" := nd_div : nd_scope.
Infix "**" := nd_pow (at level 30, right associativity) : nd_scope.

(** [a - b] where the two operands come from different places (model
    values against y-data): numpy checks the shapes. *)
Definition nd_sub_checked (a b : nd) : result nd :=
  match a, b with
  | Arr l, Arr l' => (d <- np_broadcast2 Rminus l l' ;; Ok (Arr d))%res
  | _, _ => Ok (nd_sub a b)
  end.

(** [math.fsum(v)]: a 0-d value is not iterable. *)
Definition math_fsum (v : nd) : result R :=
  match v with
  | Arr l => Ok (fold_left Rplus l 0)
  | Scalar _ => Raise TypeError
  end.

(** Builtin [max] / [min] over a sequence: the first extremal entry. *)
Definition py_max (l : list R) : result R :=
  match l with
  | [] => Raise ValueError
  | h :: t => Ok (fold_left (fun m v => if Rlt_dec m v then v else m) t h)
  end.

Definition py_min (l : list R) : result R :=
  match l with
  | [] => Raise ValueError
  | h :: t => Ok (fold_left (fun m v => if Rlt_dec v m then v else m) t h)
  end.

(** [np.argmax]: index of the first maximal entry. *)
Fixpoint argmax_from (best_i : nat) (best : R) (i : nat) (l : list R) : nat :=
  match l with
  | [] => best_i
  | v :: t =>
      if Rlt_dec best v then argmax_from i v (S i) t
      else argmax_from best_i best (S i) t
  end.

Definition np_argmax (l : list R) : result nat :=
  match l with
  | [] => Raise ValueError
  | h :: t => Ok (argmax_from 0 h 1 t)
  end.


(** [l[i] = v] on an array. *)
Fixpoint setitem {A} (l : list A) (i : nat) (v : A) : list A :=
  match l, i with
  | [], _ => []
  | _ :: t, O => v :: t
  | h :: t, S i' => h :: setitem t i' v
  end.

(** The covariance [curve_fit] returns: a 2-d array, or the bare scalar
    [inf] older scipy returns when it cannot estimate one. *)
Inductive covariance : Type :=
| CovMatrix (m : list (list npfloat))
| CovInf.

(** Main diagonal of a 2-d array. *)
Fixpoint diag_from (i : nat) (m : list (list npfloat)) : list npfloat :=
  match m with
  | [] => []
  | row :: m' =>
      match nth_error row i with
      | Some v => v :: diag_from (S i) m'
      | None => []
      end
  end.

(** [np.diag(c)]: a 0-d input is refused. *)
Definition np_diag (c : covariance) : result (list npfloat) :=
  match c with
  | CovMatrix m => Ok (diag_from 0 m)
  | CovInf => Raise ValueError
  end.

(* ================================================================= *)
(** * Observable effects                                              *)
(* ================================================================= *)

#[local] Unset Elimination Schemes.
Inductive event : Type :=
| Print (s : string)                              (* print "..." *)
| PrintParams (p : list R)                        (* print fitparams *)
| PrintCov (c : covariance)                       (* print covmatrix *)
| PrintFit (name : string) (par : R) (err : npfloat)  (* "%s : %.6f +/- %.6f" *)
| PrintCoef (idx : nat) (par : R) (err : npfloat)     (* "a{} = {} +/- {}" *)
| Plot (xs : list R) (ys : nd) (mark : option string) (label : string)
| CallLeastsq (errfunc : list R -> list event * result nd) (x0 : list R)
| CallCurveFit (f : nd -> list R -> list event * result nd)
               (xdata ydata p0 : list R).

#[local] Set Elimination Schemes.

Definition M (A : Type) : Type := (list event * result A)%type.

Definition ret {A} (a : A) : M A := ([], Ok a).
Definition lift {A} (r : result A) : M A := ([], r).
Definition tell (e : event) : M unit := ([e], Ok tt).
Definition tell_all (es : list event) : M unit := (es, Ok tt).
Definition raise {A} (e : pyexn) : M A := ([], Raise e).

(** Sequencing: the log of the first step always comes first; the second
    step runs only if the first returned. *)
Definition bind {A B} (m : M A) (k : A -> M B) : M B :=
  (fst m ++ match snd m with
            | Ok a => fst (k a)
            | Raise _ => []
            end,
   match snd m with
   | Ok a => snd (k a)
   | Raise e => Raise e
   end).

Declare Scope M_scope.
Delimit Scope M_scope with M.
Notation "x <- m ;; k" := (bind m (fun x => k))
  (at level 61, m at next level, right associativity) : M_scope.
Notation "m ;;; k" := (bind m (fun _ => k))
  (at level 61, right associativity) : M_scope.

Definition log {A} (m : M A) : list event := fst m.
Definition outcome {A} (m : M A) : result A := snd m.

(* ================================================================= *)
(** * LineshapeModels                                                 *)
(* ================================================================= *)

Open Scope nd_scope.

(** [lorfunc_better(x, offset, amplitude, center, hwhm)]: exactly four
    parameters after [x]. *)
Definition lorfunc_better (x : nd) (args : list R) : result nd :=
  match args with
  | [offset; amplitude; center; hwhm] =>
      Ok (offset + amplitude / (1 + (x - center) ** 2 / hwhm ** 2))
  | _ => Raise TypeError
  end.

(** A division between two Python floats raises on a zero divisor; as
    soon as one operand is an array numpy divides entry by entry and does
    not raise. *)
Definition float_div_guard (num den : nd) : result unit :=
  match num, den with
  | Scalar _, Scalar d => if Req_dec_T d 0 then Raise ZeroDivisionError else Ok tt
  | _, _ => Ok tt
  end.

(** [kinfunc(p, x)]; the two divisions are [x/Tc] and
    [alpha/2.*1/(1-(x/Tc)**4)]. *)
Definition kinfunc (p : list R) (x : nd) : M nd :=
  (f0 <- lift (getitem p 0) ;;
   alpha <- lift (getitem p 1) ;;
   Tc <- (if (length p =? 3)%nat then lift (getitem p 2)
          else (tell (Print "Assuming Tc = 1.20 K") ;;; ret (12 / 10)%R)) ;;
   lift (float_div_guard x Tc) ;;;
   lift (float_div_guard (alpha / 2 * 1)%R (1 - (x / Tc) ** 4)) ;;;
   ret (f0 * (1 - alpha / 2 * 1 / (1 - (x / Tc) ** 4))))%M.

(** [twolorfunc(p, x)] *)
Definition twolorfunc (p : list R) (x : nd) : result nd :=
  (p0 <- getitem p 0 ;; p1 <- getitem p 1 ;; p2 <- getitem p 2 ;;
   p3 <- getitem p 3 ;; p4 <- getitem p 4 ;; p5 <- getitem p 5 ;;
   p6 <- getitem p 6 ;;
   Ok (p0 + p1 / (1 + (x - p2) ** 2 / p3 ** 2)
          + p4 / (1 + (x - p5) ** 2 / p6 ** 2)))%res.

(** [gaussfunc(p, x)] *)
Definition gaussfunc (p : list R) (x : nd) : result nd :=
  (p0 <- getitem p 0 ;; p1 <- getitem p 1 ;; p2 <- getitem p 2 ;;
   p3 <- getitem p 3 ;;
   Ok (p0 + p1 * nd_e_pow ((-1 / 2)%R * (x - p2) ** 2 / p3 ** 2)))%res.

(** [gaussfunc_nooffset(p, x)] *)
Definition gaussfunc_nooffset (p : list R) (x : nd) : result nd :=
  (p0 <- getitem p 0 ;; p1 <- getitem p 1 ;; p2 <- getitem p 2 ;;
   Ok (p0 * nd_e_pow ((-1 / 2)%R * (x - p1) ** 2 / p2 ** 2)))%res.

(** A [for] loop whose body may raise. *)
Fixpoint for_each {A S} (l : list A) (body : S -> A -> result S) (s : S)
  : result S :=
  match l with
  | [] => Ok s
  | a :: l' => (s' <- body s a ;; for_each l' body s')%res
  end.

(** [int((len(p)-1)/3.)]: truncation toward zero. *)
Definition peak_count (p : list R) : nat :=
  Z.to_nat (Z.quot (Z.of_nat (length p) - 1) 3).

(** One pass of the loop shared by the two N-Gaussian models:
    [Ngauss += p[3*n+1]*math.e**(-1./2.*(x-p[3*n+2])**2/p[3*n+3]**2)] *)
Definition Ngauss_step (p : list R) (x : nd) (Ngauss : nd) (n : nat) : result nd :=
  (a <- getitem p (3 * n + 1) ;;
   c <- getitem p (3 * n + 2) ;;
   s <- getitem p (3 * n + 3) ;;
   Ok (Ngauss + a * nd_e_pow ((-1 / 2)%R * (x - c) ** 2 / s ** 2)))%res.

(** [Ngaussfunc(p, x)] *)
Definition Ngaussfunc (p : list R) (x : nd) : result nd :=
  let N := peak_count p in
  (Ngauss <- getitem p 0 ;;
   for_each (seq 0 N) (Ngauss_step p x) (Scalar Ngauss))%res.

(** [Ngaussfunc_no_offset(p, x)] *)
Definition Ngaussfunc_no_offset (p : list R) (x : nd) : result nd :=
  let N := peak_count p in
  for_each (seq 0 N) (Ngauss_step p x) (Scalar 0).

(** [decaysin(p, x)] *)
Definition decaysin (p : list R) (x : nd) : result nd :=
  (p0 <- getitem p 0 ;; p1 <- getitem p 1 ;; p2 <- getitem p 2 ;;
   p5 <- getitem p 5 ;; p3 <- getitem p 3 ;; p4 <- getitem p 4 ;;
   Ok (p0 * nd_sin ((2 * PI)%R * p1 * x + (p2 * PI / 180)%R)
          * nd_e_pow ((-1)%R * (x - p5) / p3) + p4))%res.

(** [parabolafunc(x, *p)] *)
Definition parabolafunc (x : nd) (p : list R) : result nd :=
  (p0 <- getitem p 0 ;; p1 <- getitem p 1 ;; p2 <- getitem p 2 ;;
   Ok (p0 + p1 * (x - p2) ** 2))%res.

(** [enumerate(p)] *)
Definition enumerate {A} (p : list A) : list (nat * A) :=
  combine (seq 0 (length p)) p.

(** [polyfunc(p, x)] *)
Definition polyfunc (p : list R) (x : nd) : nd :=
  fold_left (fun y nP => y + Scalar (snd nP) * x ** (fst nP)) (enumerate p) (Scalar 0).

(** [polyfunc_v2(x, *p)] *)
Definition polyfunc_v2 (x : nd) (p : list R) : nd :=
  fold_left (fun y nP => y + Scalar (snd nP) * x ** (fst nP)) (enumerate p) (Scalar 0).

(** [lorfunc(p, x)] *)
Definition lorfunc (p : list R) (x : nd) : result nd :=
  (p0 <- getitem p 0 ;; p1 <- getitem p 1 ;; p2 <- getitem p 2 ;;
   p3 <- getitem p 3 ;;
   Ok (p0 + p1 / (1 + (x - p2) ** 2 / p3 ** 2)))%res.

(** [fano_func(x, *p)] *)
Definition fano_func (x : nd) (p : list R) : result nd :=
  (p3 <- getitem p 3 ;; p2 <- getitem p 2 ;; p1 <- getitem p 1 ;;
   p0 <- getitem p 0 ;;
   Ok (p3 * ((p2 * p1 / 2)%R + (x - p0)) ** 2
          / (((p1 / 2) ^ 2)%R + (x - p0) ** 2)))%res.

(** Unary minus on a scalar or array. *)
Definition nd_opp : nd -> nd := nd_map Ropp.

(** [expfunc(p, x)] *)
Definition expfunc (p : list R) (x : nd) : result nd :=
  (p0 <- getitem p 0 ;; p1 <- getitem p 1 ;; p2 <- getitem p 2 ;;
   p3 <- getitem p 3 ;;
   Ok (p0 + p1 * nd_e_pow (nd_opp (x - p2) / p3)))%res.

(** [hangerfunc(p, x)]; the unpacking [f0,Qi,Qc,df,scale = p] wants
    exactly five entries. *)
Definition hangerfunc (p : list R) (x : nd) : result nd :=
  match p with
  | [f0; Qi; Qc; df; scale] =>
      let a := (x - (f0 + df)%R) / (f0 + df)%R in
      let b := (2 * df / f0)%R in
      let Q0 := (1 / (1 / Qi + 1 / Qc))%R in
      Ok (scale * ((-2 * Q0 * Qc)%R + (Qc ^ 2)%R
                   + (Q0 ^ 2)%R * (1 + (Qc ^ 2)%R * ((2 * a + b) ** 2)))
          / ((Qc ^ 2)%R * (1 + (4 * Q0 ^ 2)%R * a ** 2)))
  | _ => Raise ValueError
  end.

(** [polynomial(p, x)]: order 9, centred on [p[-1]]. *)
Definition polynomial (p : list R) (x : nd) : result nd :=
  (p0 <- getitem p 0 ;; p1 <- getitem p 1 ;; c <- getlast p ;;
   p2 <- getitem p 2 ;; p3 <- getitem p 3 ;; p4 <- getitem p 4 ;;
   p5 <- getitem p 5 ;; p6 <- getitem p 6 ;; p7 <- getitem p 7 ;;
   p8 <- getitem p 8 ;; p9 <- getitem p 9 ;;
   Ok (p0 + p1 * (x - c) + p2 * (x - c) ** 2 + p3 * (x - c) ** 3
       + p4 * (x - c) ** 4 + p5 * (x - c) ** 5 + p6 * (x - c) ** 6
       + p7 * (x - c) ** 7 + p8 * (x - c) ** 8 + p9 * (x - c) ** 9))%res.

Close Scope nd_scope.

(* ================================================================= *)
(** * LeastSquaresEngine and the fit wrappers                         *)
(* ================================================================= *)

(** The keyword arguments that steer plotting. *)
Record plotargs : Type := {
  showfit : bool;
  showstartfit : bool;
  showdata : bool;
  label : string;
  mark_data : string;
  mark_fit : string
}.

(** What a wrapper without [**kwarg] forwards: [showfit], [showstartfit]
    and [label]; the rest keep the engine's defaults. *)
Definition forwarded (po : plotargs) : plotargs :=
  {| showfit := showfit po; showstartfit := showstartfit po; showdata := true;
     label := label po; mark_data := "bo"; mark_fit := "r-" |}.

(** Return values of the two engines: bare parameters, or the tuple the
    diagnostics toggle selects. *)
Inductive fitgeneral_ret : Type :=
| GenParams (bestfitparams : list R)
| GenDiag (bestfitparams : list R) (err : R) (success : Z).

Inductive fitbetter_ret : Type :=
| BetParams (bestfitparams : list R)
| BetDiag (bestfitparams : list R) (fitparam_errors : list npfloat).

(** [zip(p1, parnames, p1_errors)] *)
Fixpoint zip3 {A B C} (a : list A) (b : list B) (c : list C) : list (A * B * C) :=
  match a, b, c with
  | x :: a', y :: b', z :: c' => (x, y, z) :: zip3 a' b' c'
  | _, _, _ => []
  end.

(** The domain restriction every wrapper starts with. *)
Definition restrict (xdata ydata : list R) (domain : option (R * R))
  : list R * list R :=
  match domain with
  | Some d => selectdomainR xdata ydata d
  | None => (xdata, ydata)
  end.

Definition when (b : bool) (m : M unit) : M unit := if b then m else ret tt.

Section Engine.
(** [scipy.optimize.leastsq(errfunc, x0, args=(x, y))], closed over its
    data: best-fit parameters and the solver's flag. *)
Variable leastsq : (list R -> M nd) -> list R -> M (list R * Z).

(** [scipy.optimize.curve_fit(f, xdata, ydata, p0)]: best-fit parameters
    and their covariance. *)
Variable curve_fit :
  (nd -> list R -> M nd) -> list R -> list R -> list R -> M (list R * covariance).

(** The spectral step of the sine heuristics ([scipy.fft],
    [fftpack.fftfreq], [argmax] over bins 4 .. n/2): frequency of the
    dominant bin and [cmath.phase] of its coefficient. *)
Variable fft_peak : list R -> R -> R * R.

(** [fitgeneral(xdata, ydata, fitfunc, fitparams, domain, ...)] *)
Definition fitgeneral (xdata ydata : list R) (fitfunc : list R -> nd -> M nd)
    (fitparams : option (list R)) (domain : option (R * R))
    (po : plotargs) (show_diagnostics : bool) : M fitgeneral_ret :=
  let fitdata := restrict xdata ydata domain in
  let fitdatax := fst fitdata in
  let fitdatay := snd fitdata in
  let errfunc := fun p x y =>
    (v <- fitfunc p (Arr x) ;; lift (nd_sub_checked v (Arr y)))%M in
  let startparams := fitparams in
  (* startparams[:] *)
  (x0 <- match startparams with
         | Some p => ret p
         | None => raise TypeError
         end ;;
   tell (CallLeastsq (fun p => errfunc p fitdatax fitdatay) x0) ;;;
   fit <- leastsq (fun p => errfunc p fitdatax fitdatay) x0 ;;
   let bestfitparams := fst fit in
   let success := snd fit in
   (* every branch under [showfit] names [plt], which is never bound *)
   when (showfit po) (raise NameError) ;;;
   r <- errfunc bestfitparams fitdatax fitdatay ;;
   err <- lift (math_fsum r) ;;
   ret (if show_diagnostics then GenDiag bestfitparams err success
        else GenParams bestfitparams))%M.

(** [fitbetter(xdata, ydata, fitfunc, fitparams, domain, ...)] *)
Definition fitbetter (xdata ydata : list R) (fitfunc : nd -> list R -> M nd)
    (fitparams : list R) (domain : option (R * R))
    (po : plotargs) (show_diagnostics : bool) : M fitbetter_ret :=
  let fitdata := restrict xdata ydata domain in
  let fitdatax := fst fitdata in
  let fitdatay := snd fitdata in
  let startparams := fitparams in
  (tell (CallCurveFit fitfunc fitdatax fitdatay startparams) ;;;
   fit <- curve_fit fitfunc fitdatax fitdatay startparams ;;
   let bestfitparams := fst fit in
   let covmatrix := snd fit in
   (* try: fitparam_errors = ... except: print ...; the name stays
      unbound when the conversion raises *)
   fitparam_errors <-
     match np_diag covmatrix with
     | Ok d => ret (Some (map np_sqrt d))
     | Raise _ =>
         (tell (PrintCov covmatrix) ;;;
          tell (Print "Error encountered in calculating errors on fit parameters. This may result from a very flat parameter space") ;;;
          ret None)
     end ;;
   when (showfit po)
     (when (showdata po)
        (tell (Plot fitdatax (Arr fitdatay) (Some (mark_data po))
                    (label po ++ " data"))) ;;;
      when (showstartfit po)
        (v <- fitfunc (Arr fitdatax) startparams ;;
         tell (Plot fitdatax v None (label po ++ " startfit"))) ;;;
      v <- fitfunc (Arr fitdatax) bestfitparams ;;
      tell (Plot fitdatax v (Some (mark_fit po)) (label po ++ " fit")) ;;;
      (* plt.legend(): [plt] is never bound *)
      when (negb (String.eqb (label po) "")) (raise NameError)) ;;;
   if show_diagnostics then
     match fitparam_errors with
     | Some errs => ret (BetDiag bestfitparams errs)
     | None => raise UnboundLocalError
     end
   else ret (BetParams bestfitparams))%M.

(** [fitlor(xdata, ydata, fitparams, domain, ..., debug, verbose, **kwarg)] *)
Definition fitlor (xdata ydata : list R) (fitparams : option (list R))
    (domain : option (R * R)) (po : plotargs) (debug verbose : bool)
  : M (list R * list npfloat) :=
  let fitdata := restrict xdata ydata domain in
  let fitdatax := fst fitdata in
  let fitdatay := snd fitdata in
  (fitparams <-
     match fitparams with
     | Some p => ret p
     | None =>
         lift (y0 <- getitem fitdatay 0 ;; yl <- getlast fitdatay ;;
               ymax <- py_max fitdatay ;; ymin <- py_min fitdatay ;;
               i <- np_argmax fitdatay ;; c <- getitem fitdatax i ;;
               xmax <- py_max fitdatax ;; xmin <- py_min fitdatax ;;
               Ok [(y0 + yl) / 2; ymax - ymin; c; (xmax - xmin) / 10])%res
     end ;;
   when debug (tell (PrintParams fitparams)) ;;;
   r <- fitbetter fitdatax fitdatay (fun x p => lift (lorfunc_better x p))
          fitparams None po true ;;
   match r with
   | BetDiag p1 p1_errors =>
       when verbose
         (tell_all (map (fun t => PrintFit (snd (fst t)) (fst (fst t)) (snd t))
                        (zip3 p1 ["offset"; "amplitude"; "center"; "hwhm"]%string
                              p1_errors))) ;;;
       (* try: p1[3]=abs(p1[3])  except: p1[0][3]=abs(p1[0][3]); the
          fallback indexes a float and raises again *)
       match nth_error p1 3 with
       | Some w => ret (setitem p1 3 (Rabs w), p1_errors)
       | None => raise IndexError
       end
   | BetParams _ => raise ValueError
   end)%M.

(** [fit_kinetic_fraction(xdata, ydata, fitparams, Tc_fixed, domain, ...)] *)
Definition fit_kinetic_fraction (xdata ydata : list R)
    (fitparams : option (list R)) (Tc_fixed : bool)
    (domain : option (R * R)) (po : plotargs) : M fitgeneral_ret :=
  let fitdata := restrict xdata ydata domain in
  let fitdatax := fst fitdata in
  let fitdatay := snd fitdata in
  (when (match fitparams with None => true | Some _ => false end)
     (tell (Print "Please provide some initial guesses.")) ;;;
   fitparams <-
     (if Tc_fixed then
        match fitparams with
        | Some p => ret (Some (firstn 2 p))
        | None => raise TypeError
        end
      else ret fitparams) ;;
   fitgeneral fitdatax fitdatay kinfunc fitparams None po false)%M.

(** [fit_double_lor(xdata, ydata, fitparams, domain, ...)]: the call to
    [fitgeneral] passes [no_offset=False], a keyword [fitgeneral] does
    not have, so binding its arguments raises. *)
Definition fit_double_lor (xdata ydata : list R) (fitparams : option (list R))
    (domain : option (R * R)) (po : plotargs) : M fitgeneral_ret :=
  let fitdata := restrict xdata ydata domain in
  (when (match fitparams with None => true | Some _ => false end)
     (tell (Print "Please provide some initial guesses.")) ;;;
   raise TypeError)%M.

(** [fit_N_gauss(xdata, ydata, fitparams, domain, ..., no_offset, **kwarg)] *)
Definition fit_N_gauss (xdata ydata : list R) (fitparams : option (list R))
    (domain : option (R * R)) (po : plotargs) (no_offset : bool)
  : M fitgeneral_ret :=
  let fitdata := restrict xdata ydata domain in
  let fitdatax := fst fitdata in
  let fitdatay := snd fitdata in
  (when (match fitparams with None => true | Some _ => false end)
     (tell (Print "Please provide some initial guesses.")) ;;;
   if no_offset then
     fitgeneral fitdatax fitdatay (fun p x => lift (Ngaussfunc_no_offset p x))
                fitparams None po false
   else
     fitgeneral fitdatax fitdatay (fun p x => lift (Ngaussfunc p x))
                fitparams None po false)%M.



(** [fitgauss(xdata, ydata, fitparams, no_offset, domain, ...)] *)
Definition fitgauss (xdata ydata : list R) (fitparams : option (list R))
    (no_offset : bool) (domain : option (R * R)) (po : plotargs)
  : M fitgeneral_ret :=
  let fitdata := restrict xdata ydata domain in
  let fitdatax := fst fitdata in
  let fitdatay := snd fitdata in
  (fitparams <-
     match fitparams with
     | Some p => ret p
     | None =>
         lift (y0 <- getitem fitdatay 0 ;; yl <- getlast fitdatay ;;
               ymax <- py_max fitdatay ;; ymin <- py_min fitdatay ;;
               i <- np_argmax fitdatay ;; c <- getitem fitdatax i ;;
               xmax <- py_max fitdatax ;; xmin <- py_min fitdatax ;;
               Ok [(y0 + yl) / 2; ymax - ymin; c; (xmax - xmin) / 3])%res
     end ;;
   if no_offset then
     fitgeneral fitdatax fitdatay (fun p x => lift (gaussfunc_nooffset p x))
                (Some (if (3 <? length fitparams)%nat then tl fitparams
                       else fitparams))
                None (forwarded po) false
   else
     fitgeneral fitdatax fitdatay (fun p x => lift (gaussfunc p x))
                (Some fitparams) None (forwarded po) false)%M.

(** [fit_parabola(xdata, ydata, fitparams, domain, ..., verbose, **kwarg)];
    [None] is Python's [None], returned by the bare [return]. *)
Definition fit_parabola (xdata ydata : list R) (fitparams : option (list R))
    (domain : option (R * R)) (po : plotargs) (verbose : bool)
  : M (option (list R * list npfloat)) :=
  match fitparams with
  | None =>
      (tell (Print "Please specify fit parameters in function input") ;;;
       ret None)%M
  | Some fitparams =>
      let fitdata := restrict xdata ydata domain in
      let fitdatax := fst fitdata in
      let fitdatay := snd fitdata in
      (r <- fitbetter fitdatax fitdatay (fun x p => lift (parabolafunc x p))
              fitparams None po true ;;
       match r with
       | BetDiag p1 p1err =>
           when verbose
             (tell (Print "Fit results for y = a0 + a1*(x-a2)**2 with 1 sigma confidence intervals") ;;;
              tell (Print "---------------------------------------------------------------------") ;;;
              tell_all (map (fun t => PrintCoef (fst t) (fst (snd t)) (snd (snd t)))
                            (enumerate (combine p1 p1err)))) ;;;
           ret (Some (p1, p1err))
       | BetParams _ => raise ValueError
       end)%M
  end.

(** [fitpoly(xdata, ydata, fitparams, domain, ..., verbose, **kwarg)] *)
Definition fitpoly (xdata ydata : list R) (fitparams : option (list R))
    (domain : option (R * R)) (po : plotargs) (verbose : bool)
  : M (option (list R * list npfloat)) :=
  match fitparams with
  | None =>
      (tell (Print "Please specify fit parameters in function input") ;;;
       ret None)%M
  | Some fitparams =>
      let fitdata := restrict xdata ydata domain in
      let fitdatax := fst fitdata in
      let fitdatay := snd fitdata in
      (r <- fitbetter fitdatax fitdatay (fun x p => ret (polyfunc_v2 x p))
              fitparams None po true ;;
       match r with
       | BetDiag p1 p1err =>
           when verbose
             (tell (Print "Fit results for y = a0 + a1*x + ... with 1 sigma confidence intervals") ;;;
              tell (Print "---------------------------------------------------------------------") ;;;
              tell_all (map (fun t => PrintCoef (fst t) (fst (snd t)) (snd (snd t)))
                            (enumerate (combine p1 p1err)))) ;;;
           ret (Some (p1, p1err))
       | BetParams _ => raise ValueError
       end)%M
  end.
(** [fitexp(xdata, ydata, fitparams, domain, ...)] *)
Definition fitexp (xdata ydata : list R) (fitparams : option (list R))
    (domain : option (R * R)) (po : plotargs) : M fitgeneral_ret :=
  let fitdata := restrict xdata ydata domain in
  let fitdatax := fst fitdata in
  let fitdatay := snd fitdata in
  (fitparams <-
     match fitparams with
     | Some p => ret p
     | None =>
         lift (yl <- getlast fitdatay ;; y0 <- getitem fitdatay 0 ;;
               x0 <- getitem fitdatax 0 ;; xl <- getlast fitdatax ;;
               Ok [yl; y0 - yl; x0; (xl - x0) / 5])%res
     end ;;
   fitgeneral fitdatax fitdatay (fun p x => lift (expfunc p x))
              (Some fitparams) None (forwarded po) false)%M.

End Engine.

(** Did a run enter one of the two optimizers? *)
Definition is_optimizer_call (e : event) : bool :=
  match e with
  | CallLeastsq _ _ | CallCurveFit _ _ _ _ => true
  | _ => false
  end.

Definition fit_attempted {A} (m : M A) : bool := existsb is_optimizer_call (log m).

(** The first optimizer entry of a log, and the start vector it got. *)
Definition first_call (l : list event) : option event := find is_optimizer_call l.

Definition start_vector (e : event) : option (list R) :=
  match e with
  | CallLeastsq _ x0 => Some x0
  | CallCurveFit _ _ _ p0 => Some p0
  | _ => None
  end.

Definition first_start (l : list event) : option (list R) :=
  match first_call l with
  | Some e => start_vector e
  | None => None
  end.


(** Plotting and printing switched off. *)
Definition quiet : plotargs :=
  {| showfit := false; showstartfit := false; showdata := true;
     label := ""; mark_data := "bo"; mark_fit := "r-" |}.

(** Optimizer runs with a fixed answer, for concrete evaluations. *)
Definition curve_fit_returning (best : list R) (cov : covariance)
  : (nd -> list R -> M nd) -> list R -> list R -> list R -> M (list R * covariance) :=
  fun _ _ _ _ => ret (best, cov).

Definition leastsq_returning (best : list R)
  : (list R -> M nd) -> list R -> M (list R * Z) :=
  fun _ _ => ret (best, 1%Z).

(* ================================================================= *)
(** * Mathematical notions the statements use                         *)
(* ================================================================= *)

(** [Σ l] *)
Definition Rsum (l : list R) : R := fold_right Rplus 0 l.

Definition mean (l : list R) : R := Rsum l / INR (length l).

(** [Σ (y_observed − y_fitted)²] and [Σ (y_observed − mean(y_observed))²]. *)
Definition residual_ss (ys fs : list R) : R :=
  Rsum (map (fun yf => (fst yf - snd yf) ^ 2) (combine ys fs)).

Definition total_ss (ys : list R) : R :=
  Rsum (map (fun y => (y - mean ys) ^ 2) ys).

(** [A·exp(−0.5·((x−c)/σ)²)] *)
Definition gauss_term (A c sigma x : R) : R :=
  A * exp (- (1 / 2) * ((x - c) / sigma) ^ 2).

(** Consecutive triples [(A_i, c_i, σ_i)] of a flat vector. *)
Fixpoint triples (fuel : nat) (l : list R) : list (R * R * R) :=
  match fuel, l with
  | S fuel', a :: c :: s :: l' => (a, c, s) :: triples fuel' l'
  | _, _ => []
  end.

Definition gauss_sum (ts : list (R * R * R)) (x : R) : R :=
  Rsum (map (fun t => gauss_term (fst (fst t)) (snd (fst t)) (snd t) x) ts).

(** [f0·(1 − alpha/2 · 1/(1 − (x/Tc)⁴))] *)
Definition kinetic_formula (f0 alpha Tc x : R) : R :=
  f0 * (1 - alpha / 2 * (1 / (1 - (x / Tc) ^ 4))).

(** No divisor of the kinetic formula vanishes at [x] (at every entry of
    an array [x]). *)
Definition kin_defined (Tc : R) (x : nd) : Prop :=
  Tc <> 0
  /\ match x with
     | Scalar r => (r / Tc) ^ 4 <> 1
     | Arr l => Forall (fun r => (r / Tc) ^ 4 <> 1) l
     end.

(** Horner evaluation of [a0 + a1 x + a2 x² + ...]. *)
Definition horner (p : list R) (x : R) : R :=
  fold_right (fun a acc => a + x * acc) 0 p.

(** Extremal entries of a sequence. *)
Definition maximum_of (l : list R) (m : R) : Prop :=
  In m l /\ Forall (fun v => v <= m) l.

Definition minimum_of (l : list R) (m : R) : Prop :=
  In m l /\ Forall (fun v => m <= v) l.

(** [i] is the position of the first maximal entry. *)
Definition first_argmax (l : list R) (i : nat) : Prop :=
  exists m, nth_error l i = Some m /\ maximum_of l m
            /\ forall j v, (j < i)%nat -> nth_error l j = Some v -> v < m.

(* ================================================================= *)
(** * DomainSelector: properties                                      *)
(* ================================================================= *)

Section SearchsortedFacts.
Context {A : Type} (ltb : A -> A -> bool).

(** What the search needs of the order: below-or-equal a value that is
    below [v] is itself below [v]. *)
Hypothesis ltb_down : forall a b v, ltb b a = false -> ltb b v = true -> ltb a v = true.

Lemma bisect_left_split (v : A) (L Rt : list A) :
  Forall (fun m => ltb m v = true) L ->
  Forall (fun m => ltb m v = false) Rt ->
  forall fuel lo hi,
    (lo <= length L)%nat -> (length L <= hi)%nat ->
    (hi <= length (L ++ Rt))%nat -> (hi - lo <= fuel)%nat ->
    bisect_left ltb fuel (L ++ Rt) v lo hi = length L.
Proof.
  intros HL HR fuel.
  induction fuel as [|fuel IH]; intros lo hi Hlo Hhi Hlen Hfuel;
    cbn [bisect_left].
  - lia.
  - destruct (Nat.ltb_spec lo hi) as [Hlt|Hge]; [|lia].
    cbv zeta. set (mid := (lo + (hi - lo) / 2)%nat).
    assert (Hmid : (lo <= mid < hi)%nat).
    { unfold mid. split; [lia|].
      assert ((hi - lo) / 2 < hi - lo)%nat by (apply Nat.div_lt; lia). lia. }
    destruct (nth_error (L ++ Rt) mid) as [m|] eqn:Hnth.
    + destruct (Nat.lt_ge_cases mid (length L)) as [HmL|HmR].
      * rewrite nth_error_app1 in Hnth by assumption.
        apply nth_error_In in Hnth.
        rewrite Forall_forall in HL. rewrite (HL _ Hnth).
        apply IH; lia.
      * rewrite nth_error_app2 in Hnth by assumption.
        apply nth_error_In in Hnth.
        rewrite Forall_forall in HR. rewrite (HR _ Hnth).
        apply IH; lia.
    + apply nth_error_None in Hnth. lia.
Qed.

Lemma sorted_tail_not_below (v h : A) (t : list A) :
  sorted_by ltb (h :: t) -> ltb h v = false ->
  Forall (fun m => ltb m v = false) t.
Proof.
  intros Hs Hh. inversion Hs as [|? ? _ Hall]; subst.
  rewrite Forall_forall in *. intros m Hm.
  destruct (ltb m v) eqn:E; [|reflexivity].
  rewrite (ltb_down h m v (Hall m Hm) E) in Hh. discriminate.
Qed.

Lemma filter_none {B} (p : B -> bool) (l : list B) :
  Forall (fun m => p m = false) l -> filter p l = [].
Proof.
  induction 1 as [|m l Hm _ IH]; simpl; [reflexivity|]. now rewrite Hm.
Qed.

Lemma filter_all {B} (p : B -> bool) (l : list B) :
  Forall (fun m => p m = true) l -> filter p l = l.
Proof.
  induction 1 as [|m l Hm _ IH]; simpl; [reflexivity|]. now rewrite Hm, IH.
Qed.

Lemma sorted_split (v : A) (l : list A) :
  sorted_by ltb l ->
  l = filter (below ltb v) l ++ filter (fun m => negb (below ltb v m)) l.
Proof.
  induction l as [|h t IH]; intros Hs; [reflexivity|].
  simpl. unfold below in *. destruct (ltb h v) eqn:E; simpl.
  - f_equal. apply IH. now inversion Hs.
  - pose proof (sorted_tail_not_below v h t Hs E) as Hall.
    rewrite (filter_none (fun m => ltb m v) t Hall). simpl. f_equal.
    symmetry. apply filter_all.
    eapply Forall_impl; [|exact Hall]. intros m Hm. simpl in Hm. now rewrite Hm.
Qed.

(** On ascending data the search returns the number of entries below [v]. *)
Lemma searchsorted_count (v : A) (l : list A) :
  sorted_by ltb l -> searchsorted ltb l v = length (filter (below ltb v) l).
Proof.
  intros Hs. unfold searchsorted.
  pose proof (sorted_split v l Hs) as E.
  remember (filter (below ltb v) l) as L eqn:HL0.
  remember (filter (fun m => negb (below ltb v m)) l) as Rt eqn:HR0.
  assert (HL : Forall (fun m => ltb m v = true) L).
  { subst L. apply Forall_forall. intros m Hm. apply filter_In in Hm. apply Hm. }
  assert (HR : Forall (fun m => ltb m v = false) Rt).
  { subst Rt. apply Forall_forall. intros m Hm. apply filter_In in Hm.
    destruct Hm as [_ Hm]. unfold below in Hm. now destruct (ltb m v). }
  clear HL0 HR0. subst l.
  apply bisect_left_split; rewrite ?length_app; try assumption; lia.
Qed.

(** Slicing keyed data between the two counts keeps exactly the entries
    whose key is in the half-open range. *)
Lemma slice_counts_filter {B} (key : B -> A) (lo hi : A) (l : list B) :
  sorted_by ltb (map key l) ->
  slice (length (filter (below ltb lo) (map key l)))
        (length (filter (below ltb hi) (map key l))) l
  = filter (fun b => negb (ltb (key b) lo) && ltb (key b) hi) l.
Proof.
  induction l as [|h t IH]; intros Hs; [reflexivity|].
  simpl map in *.
  assert (Hst : sorted_by ltb (map key t)) by now inversion Hs.
  assert (Hnone : forall v, ltb (key h) v = false ->
            filter (below ltb v) (map key t) = []
            /\ Forall (fun b => ltb (key b) v = false) t).
  { intros v E. pose proof (sorted_tail_not_below v _ _ Hs E) as Hall.
    split; [now apply filter_none|].
    rewrite Forall_forall in *. intros b Hb. apply Hall. now apply in_map. }
  simpl filter. unfold below in *.
  assert (Hout : forall l', Forall (fun b => ltb (key b) hi = false) l' ->
            filter (fun b => negb (ltb (key b) lo) && ltb (key b) hi) l' = []).
  { intros l' Hall. apply filter_none.
    eapply Forall_impl; [|exact Hall]. intros b Hb. simpl in Hb. rewrite Hb.
    apply andb_false_r. }
  destruct (ltb (key h) lo) eqn:Elo; destruct (ltb (key h) hi) eqn:Ehi; simpl.
  - unfold slice in *. simpl. now apply IH.
  - destruct (Hnone hi Ehi) as [Hz Hall]. rewrite Hz, (Hout t Hall).
    reflexivity.
  - destruct (Hnone lo Elo) as [Hz _]. specialize (IH Hst).
    rewrite Hz in *. unfold slice in *. simpl in *.
    rewrite Nat.sub_0_r in IH. now rewrite IH.
  - destruct (Hnone hi Ehi) as [Hz Hall]. rewrite Hz, (Hout t Hall).
    reflexivity.
Qed.
End SearchsortedFacts.

(** ** The float instance *)

Lemma Rltb_true (a b : R) : a < b -> Rltb a b = true.
Proof. intros H. unfold Rltb. destruct (Rlt_dec a b); [reflexivity|contradiction]. Qed.

Lemma Rltb_false (a b : R) : b <= a -> Rltb a b = false.
Proof. intros H. unfold Rltb. destruct (Rlt_dec a b); [lra|reflexivity]. Qed.

Lemma Rltb_lt (a b : R) : Rltb a b = true <-> a < b.
Proof. unfold Rltb. destruct (Rlt_dec a b); split; intros; try easy. Qed.

Lemma Rltb_ge (a b : R) : Rltb a b = false <-> b <= a.
Proof.
  unfold Rltb. destruct (Rlt_dec a b); split; intros; try easy; lra.
Qed.

Lemma Rltb_down (a b v : R) : Rltb b a = false -> Rltb b v = true -> Rltb a v = true.
Proof.
  rewrite Rltb_ge. rewrite !Rltb_lt. lra.
Qed.

Lemma in_domain_spec (lo hi v : R) : in_domain (lo, hi) v = true <-> lo <= v < hi.
Proof.
  unfold in_domain. simpl. rewrite andb_true_iff, negb_true_iff, Rltb_ge, Rltb_lt.
  tauto.
Qed.

Lemma sorted_by_Rle (l : list R) : StronglySorted Rle l -> sorted_by Rltb l.
Proof.
  unfold sorted_by. induction 1 as [|h t Hs IH Hall]; constructor; [assumption|].
  eapply Forall_impl; [|exact Hall]. intros b Hb. now apply Rltb_false.
Qed.

Lemma map_fst_combine_eq {A B} (x : list A) (y : list B) :
  length x = length y -> map fst (combine x y) = x.
Proof.
  revert y. induction x as [|a x IH]; intros [|b y] H; simpl in *; try easy.
  f_equal. apply IH. lia.
Qed.

Lemma map_snd_combine_eq {A B} (x : list A) (y : list B) :
  length x = length y -> map snd (combine x y) = y.
Proof.
  revert y. induction x as [|a x IH]; intros [|b y] H; simpl in *; try easy.
  f_equal. apply IH. lia.
Qed.

Lemma slice_map {A B} (f : A -> B) (i j : nat) (l : list A) :
  slice i j (map f l) = map f (slice i j l).
Proof. unfold slice. now rewrite skipn_map, firstn_map. Qed.

(** The two slices [selectdomain] takes, on ascending x. *)
Lemma selectdomainR_filter (x y : list R) (lo hi : R) :
  StronglySorted Rle x -> length x = length y ->
  selectdomainR x y (lo, hi)
  = (filter (in_domain (lo, hi)) x,
     map snd (filter (fun xy => in_domain (lo, hi) (fst xy)) (combine x y))).
Proof.
  intros Hs Hlen. apply sorted_by_Rle in Hs.
  unfold selectdomainR, selectdomain. cbn [fst snd].
  rewrite !(searchsorted_count Rltb Rltb_down) by assumption.
  f_equal.
  - pose proof (slice_counts_filter Rltb Rltb_down (fun v : R => v) lo hi x) as E.
    rewrite map_id in E. now apply E.
  - pose proof (slice_counts_filter Rltb Rltb_down (@fst R R) lo hi (combine x y)) as E.
    rewrite (map_fst_combine_eq x y Hlen) in E. specialize (E Hs).
    unfold in_domain. cbn [fst snd]. rewrite <- E, <- slice_map.
    now rewrite (map_snd_combine_eq x y Hlen).
Qed.

(** Deciding the comparisons of a concrete run. *)
Ltac Rdecide :=
  repeat match goal with
    | |- context [Rlt_dec ?a ?b] => destruct (Rlt_dec a b); try lra
    | |- context [Rle_dec ?a ?b] => destruct (Rle_dec a b); try lra
    | |- context [Req_dec_T ?a ?b] => destruct (Req_dec_T a b); try lra
    end.

(** C1 (as stated, second half): restricting to the full range
    [(x[0], x[last])] does not return the sequences unchanged; the
    half-open range drops the last point. *)
Lemma selectdomain_full_range_drops_last :
  selectdomainR [1; 2; 3] [10; 20; 30] (1, 3) = ([1; 2], [10; 20])
  /\ selectdomainR [1; 2; 3] [10; 20; 30] (1, 3) <> ([1; 2; 3], [10; 20; 30]).
Proof.
  assert (E : selectdomainR [1; 2; 3] [10; 20; 30] (1, 3) = ([1; 2], [10; 20])).
  { rewrite selectdomainR_filter.
    - unfold in_domain, Rltb. simpl. Rdecide. reflexivity.
    - repeat constructor; lra.
    - reflexivity. }
  split; [exact E|]. rewrite E. intros H. inversion H.
Qed.

(** C1 (amended): on ascending x with y of the same length,
    [selectdomain] returns one contiguous slice [i:j] of both sequences;
    the x slice holds exactly the values with [lo <= x < hi], the y slice
    the entries at the same positions; and the sequences come back
    unchanged whenever every x lies in [lo, hi) -- for which [hi] has to
    exceed [x[last]]. *)
Theorem selectdomain_half_open (x y : list R) (lo hi : R) :
  StronglySorted Rle x -> length x = length y ->
  (exists i j : nat,
      selectdomainR x y (lo, hi) = (slice i j x, slice i j y)
      /\ slice i j x = filter (in_domain (lo, hi)) x
      /\ slice i j y
         = map snd (filter (fun xy => in_domain (lo, hi) (fst xy)) (combine x y)))
  /\ (forall v, In v (fst (selectdomainR x y (lo, hi))) <-> In v x /\ lo <= v < hi)
  /\ (Forall (fun v => lo <= v < hi) x -> selectdomainR x y (lo, hi) = (x, y)).
Proof.
  intros Hs Hlen.
  pose proof (selectdomainR_filter x y lo hi Hs Hlen) as E.
  split; [|split].
  - exists (searchsorted Rltb x lo), (searchsorted Rltb x hi).
    unfold selectdomainR, selectdomain in *. cbn [fst snd] in *.
    split; [reflexivity|]. now inversion E.
  - intros v. rewrite E. cbn [fst]. rewrite filter_In, in_domain_spec. tauto.
  - intros Hall. rewrite E. f_equal.
    + apply filter_all. eapply Forall_impl; [|exact Hall].
      intros v Hv. now apply in_domain_spec.
    + rewrite filter_all; [now apply map_snd_combine_eq|].
      apply Forall_forall. intros [a b] Hab. cbn [fst].
      apply in_domain_spec. rewrite Forall_forall in Hall.
      apply Hall. eapply in_combine_l; eauto.
Qed.

Lemma selectdomain_half_open_witness :
  (exists i j : nat,
      selectdomainR [1; 2; 3] [10; 20; 30] (1, 4)
      = (slice i j [1; 2; 3], slice i j [10; 20; 30])
      /\ slice i j [1; 2; 3] = filter (in_domain (1, 4)) [1; 2; 3]
      /\ slice i j [10; 20; 30]
         = map snd (filter (fun xy => in_domain (1, 4) (fst xy))
                           (combine [1; 2; 3] [10; 20; 30])))
  /\ (forall v, In v (fst (selectdomainR [1; 2; 3] [10; 20; 30] (1, 4)))
                <-> In v [1; 2; 3] /\ 1 <= v < 4)
  /\ (Forall (fun v => 1 <= v < 4) [1; 2; 3]
      -> selectdomainR [1; 2; 3] [10; 20; 30] (1, 4) = ([1; 2; 3], [10; 20; 30])).
Proof.
  apply (selectdomain_half_open [1; 2; 3] [10; 20; 30] 1 4).
  - repeat constructor; lra.
  - reflexivity.
Defined.

(* ================================================================= *)
(** * GoodnessOfFit: properties                                       *)
(* ================================================================= *)

Lemma fold_left_fadd_Finite (l : list R) (a : R) :
  fold_left fadd (map Finite l) (Finite a) = Finite (a + Rsum l).
Proof.
  revert a. induction l as [|v l IH]; intros a; simpl.
  - f_equal. lra.
  - rewrite IH. f_equal. lra.
Qed.

Lemma np_sum_Finite (l : list R) : np_sum (map Finite l) = Finite (Rsum l).
Proof. unfold np_sum. rewrite fold_left_fadd_Finite. f_equal. lra. Qed.

Lemma np_mean_Finite (l : list R) :
  l <> [] -> np_mean (map Finite l) = Finite (mean l).
Proof.
  intros Hne. unfold np_mean. rewrite np_sum_Finite, length_map. simpl.
  destruct (Req_dec_T (INR (length l)) 0) as [E|_]; [|reflexivity].
  exfalso. revert E. apply not_0_INR. destruct l; [contradiction|discriminate].
Qed.

Lemma np_broadcast2_same {A B C} (f : A -> B -> C) (a : list A) (b : list B) :
  length a = length b ->
  np_broadcast2 f a b = Ok (map (fun ab => f (fst ab) (snd ab)) (combine a b)).
Proof. intros H. unfold np_broadcast2. now rewrite H, Nat.eqb_refl. Qed.

Lemma combine_map_Finite (ys fs : list R) :
  combine (map Finite ys) (map Finite fs)
  = map (fun yf => (Finite (fst yf), Finite (snd yf))) (combine ys fs).
Proof.
  revert fs. induction ys as [|y ys IH]; intros [|f fs]; simpl; try reflexivity.
  now rewrite IH.
Qed.

Lemma total_ss_nonempty (ys : list R) : total_ss ys <> 0 -> ys <> [].
Proof. intros H E. subst. now apply H. Qed.

(** The value [get_rsquare] computes on finite data of positive spread. *)
Lemma get_rsquare_value (ys fs : list R) :
  length ys = length fs -> total_ss ys <> 0 ->
  get_rsquare (map Finite ys) (map Finite fs)
  = Ok (Finite (1 - residual_ss ys fs / total_ss ys)).
Proof.
  intros Hlen Htot. unfold get_rsquare.
  rewrite np_mean_Finite by now apply total_ss_nonempty.
  rewrite np_broadcast2_same by now rewrite !length_map.
  cbn [rbind]. rewrite combine_map_Finite, !map_map.
  assert (E1 : map (fun y => fsquare (fsub (Finite y) (Finite (mean ys)))) ys
               = map Finite (map (fun y => (y - mean ys) ^ 2) ys)).
  { rewrite map_map. apply map_ext. intros y. simpl. f_equal. ring. }
  assert (E2 : map (fun yf : R * R =>
                      fsquare (fsub (fst (Finite (fst yf), Finite (snd yf)))
                                    (snd (Finite (fst yf), Finite (snd yf)))))
                   (combine ys fs)
               = map Finite (map (fun yf => (fst yf - snd yf) ^ 2) (combine ys fs))).
  { rewrite map_map. apply map_ext. intros yf. simpl. f_equal. ring. }
  rewrite E1, E2, !np_sum_Finite.
  fold (total_ss ys). fold (residual_ss ys fs). simpl.
  destruct (Req_dec_T (total_ss ys) 0) as [E|_]; [contradiction|].
  reflexivity.
Qed.

Lemma residual_ss_self (ys : list R) : residual_ss ys ys = 0.
Proof.
  unfold residual_ss. induction ys as [|y ys IH]; [reflexivity|].
  unfold Rsum in *. cbn [combine map fold_right fst snd]. rewrite IH. ring.
Qed.

Lemma residual_ss_const (ys : list R) (m : R) :
  residual_ss ys (map (fun _ => m) ys) = Rsum (map (fun y => (y - m) ^ 2) ys).
Proof.
  unfold residual_ss. induction ys as [|y ys IH]; [reflexivity|].
  unfold Rsum in *. cbn [combine map fold_right fst snd]. now rewrite IH.
Qed.

(** C5 (as stated): on constant data a perfect fit does not give 1; the
    zero total variance makes the quotient [0/0]. *)
Lemma get_rsquare_perfect_fit_constant_data :
  get_rsquare [Finite 1; Finite 1] [Finite 1; Finite 1] = Ok NaN
  /\ get_rsquare (map Finite [1; 1]) (map Finite [1; 1]) <> Ok (Finite 1).
Proof.
  assert (E : get_rsquare [Finite 1; Finite 1] [Finite 1; Finite 1] = Ok NaN).
  { unfold get_rsquare, np_mean, np_sum, np_broadcast2, fsquare, fsub, fdiv,
      signed_inf. simpl.
    destruct (Req_dec_T (1 + 1) 0) as [E|_]; [lra|]. simpl.
    destruct (Req_dec_T _ 0) as [_|N].
    - simpl. Rdecide. reflexivity.
    - exfalso. apply N. field. }
  split; [exact E|]. simpl. rewrite E. discriminate.
Qed.

(** C5 (amended): for equal-length real sequences whose total sum of
    squares is not zero, [get_rsquare] is [1 − Σ(y−f)² / Σ(y−mean y)²]; a
    perfect fit then gives exactly 1 and the constant fit [mean y] exactly
    0. *)
Theorem get_rsquare_formula (ys fs : list R) :
  length ys = length fs -> total_ss ys <> 0 ->
  get_rsquare (map Finite ys) (map Finite fs)
  = Ok (Finite (1 - residual_ss ys fs / total_ss ys))
  /\ (fs = ys -> get_rsquare (map Finite ys) (map Finite fs) = Ok (Finite 1))
  /\ (fs = map (fun _ => mean ys) ys
      -> get_rsquare (map Finite ys) (map Finite fs) = Ok (Finite 0)).
Proof.
  intros Hlen Htot.
  pose proof (get_rsquare_value ys fs Hlen Htot) as E.
  split; [exact E|split]; intros ->; rewrite E; do 2 f_equal.
  - rewrite residual_ss_self. field. exact Htot.
  - rewrite residual_ss_const. fold (total_ss ys). field. exact Htot.
Qed.

Lemma get_rsquare_formula_witness :
  get_rsquare (map Finite [1; 3]) (map Finite [1; 3])
  = Ok (Finite (1 - residual_ss [1; 3] [1; 3] / total_ss [1; 3]))
  /\ ([1; 3] = [1; 3]
      -> get_rsquare (map Finite [1; 3]) (map Finite [1; 3]) = Ok (Finite 1))
  /\ ([1; 3] = map (fun _ => mean [1; 3]) [1; 3]
      -> get_rsquare (map Finite [1; 3]) (map Finite [1; 3]) = Ok (Finite 0)).
Proof.
  apply (get_rsquare_formula [1; 3] [1; 3]).
  - reflexivity.
  - unfold total_ss, mean, Rsum. simpl. intros H. field_simplify in H. lra.
Defined.

(* ================================================================= *)
(** * LineshapeModels: properties                                     *)
(* ================================================================= *)

Lemma e_pow_exp (y : R) : e_pow y = exp y.
Proof. unfold e_pow, Rpower. now rewrite ln_exp, Rmult_1_r. Qed.

(** The exponent as the code groups it, against the textbook grouping. *)
Lemma gauss_exponent (x c s : R) :
  - 1 / 2 * (x - c) ^ 2 / s ^ 2 = - (1 / 2) * ((x - c) / s) ^ 2.
Proof.
  unfold Rdiv. rewrite (Rpow_mult_distr (x - c) (/ s)), pow_inv. ring.
Qed.

Lemma skipn_three (p : list R) (i : nat) :
  (i + 3 <= length p)%nat ->
  exists a c s,
    nth_error p i = Some a /\ nth_error p (i + 1) = Some c
    /\ nth_error p (i + 2) = Some s
    /\ skipn i p = a :: c :: s :: skipn (i + 3) p.
Proof.
  revert i. induction p as [|h p IH]; intros i Hlen; simpl in Hlen; [lia|].
  destruct i as [|i].
  - destruct p as [|c [|s p]]; simpl in Hlen; try lia.
    exists h, c, s. repeat split.
  - destruct (IH i) as (a & c & s & Ha & Hc & Hs & Hsk); [lia|].
    exists a, c, s. simpl. repeat split; assumption.
Qed.

(** The loop of the N-Gaussian models, started at peak [k]: it adds the
    Gaussians of the triples that begin at index [3k+1]. *)
Lemma Ngauss_loop (p : list R) (x : R) (m : nat) :
  forall (k : nat) (acc : R),
    (3 * (k + m) + 1 <= length p)%nat ->
    for_each (seq k m) (Ngauss_step p (Scalar x)) (Scalar acc)
    = Ok (Scalar (acc + gauss_sum (triples m (skipn (3 * k + 1) p)) x)).
Proof.
  induction m as [|m IH]; intros k acc Hlen.
  - simpl. unfold gauss_sum. simpl. do 2 f_equal. lra.
  - cbn [seq for_each]. unfold Ngauss_step at 1.
    destruct (skipn_three p (3 * k + 1)) as (a & c & s & Ha & Hc & Hs & Hsk); [lia|].
    unfold getitem.
    replace (3 * k + 2)%nat with (3 * k + 1 + 1)%nat by lia.
    replace (3 * k + 3)%nat with (3 * k + 1 + 2)%nat by lia.
    rewrite Ha, Hc, Hs. cbn [rbind nd_add nd_mul nd_sub nd_div nd_pow nd_e_pow
                              nd_map nd_map2].
    rewrite IH by lia. rewrite Hsk.
    replace (3 * k + 1 + 3)%nat with (3 * S k + 1)%nat by lia.
    cbn [triples]. unfold gauss_sum. cbn [map Rsum fold_right fst snd].
    do 2 f_equal. unfold gauss_term.
    rewrite e_pow_exp, gauss_exponent. unfold Rsum. ring.
Qed.

Lemma peak_count_offset (p : list R) (N : nat) :
  length p = (3 * N + 1)%nat -> peak_count p = N.
Proof.
  intros H. unfold peak_count. rewrite H.
  replace (Z.of_nat (3 * N + 1) - 1)%Z with (Z.of_nat N * 3)%Z by lia.
  rewrite Z.quot_mul by lia. apply Nat2Z.id.
Qed.

Lemma peak_count_no_offset (p : list R) (N : nat) :
  length p = (3 * N + 3)%nat -> peak_count p = N.
Proof.
  intros H. unfold peak_count. rewrite H.
  rewrite <- (Z.quot_unique (Z.of_nat (3 * N + 3) - 1) 3 (Z.of_nat N) 2) by lia.
  apply Nat2Z.id.
Qed.

(** First half of C2: with an offset and [3N+1] parameters the model is
    [p[0] + Σ A_i·exp(−0.5·((x−c_i)/σ_i)²)] over the triples after [p[0]]. *)
Lemma Ngaussfunc_value (p0 : R) (rest : list R) (N : nat) (x : R) :
  length rest = (3 * N)%nat ->
  Ngaussfunc (p0 :: rest) (Scalar x)
  = Ok (Scalar (p0 + gauss_sum (triples N rest) x)).
Proof.
  intros Hlen. unfold Ngaussfunc.
  rewrite (peak_count_offset (p0 :: rest) N) by (simpl; lia).
  cbn [getitem nth_error rbind].
  rewrite Ngauss_loop by (simpl; lia). reflexivity.
Qed.

(** What the model without offset computes on [3(N+1)] parameters: the
    entry [p[0]] is skipped and only [N] Gaussians are added, read from
    the triples that start at index 1. *)
Lemma Ngaussfunc_no_offset_value (p : list R) (N : nat) (x : R) :
  length p = (3 * N + 3)%nat ->
  Ngaussfunc_no_offset p (Scalar x)
  = Ok (Scalar (0 + gauss_sum (triples N (tl p)) x)).
Proof.
  intros Hlen. unfold Ngaussfunc_no_offset.
  rewrite (peak_count_no_offset p N Hlen).
  rewrite Ngauss_loop by lia. destruct p; reflexivity.
Qed.

(** C2 (second half, on the code): for the one-peak vector
    [A, c, σ] = [2, 0, 1] the model without offset returns 0 at [x = 0],
    where the sum of the Gaussian terms of the triple is 2. *)
Theorem Ngaussfunc_no_offset_misses_peak :
  Ngaussfunc_no_offset [2; 0; 1] (Scalar 0) = Ok (Scalar 0)
  /\ gauss_sum (triples 1 [2; 0; 1]) 0 = 2
  /\ Ngaussfunc [7; 2; 0; 1] (Scalar 0) = Ok (Scalar (7 + 2)).
Proof.
  split; [reflexivity|].
  assert (E : gauss_sum (triples 1 [2; 0; 1]) 0 = 2).
  { unfold gauss_sum, gauss_term. simpl.
    replace (- (1 / 2) * ((0 - 0) / 1 * ((0 - 0) / 1 * 1))) with 0 by field.
    rewrite exp_0. ring. }
  split; [exact E|].
  rewrite (Ngaussfunc_value 7 [2; 0; 1] 1 0) by reflexivity. now rewrite E.
Qed.

Lemma kinetic_grouping (f0 alpha Tc x : R) :
  f0 * (1 - alpha / 2 * 1 / (1 - (x / Tc) ^ 4)) = kinetic_formula f0 alpha Tc x.
Proof. unfold kinetic_formula, Rdiv. ring. Qed.

Lemma kinfunc_body (f0 alpha Tc : R) (x : nd) :
  (Scalar f0 * (Scalar 1 - Scalar alpha / Scalar 2 * Scalar 1
                           / (Scalar 1 - (x / Scalar Tc) ** 4)))%nd
  = nd_map (kinetic_formula f0 alpha Tc) x.
Proof.
  destruct x as [r|l]; simpl.
  - f_equal. apply kinetic_grouping.
  - f_equal. rewrite !map_map. apply map_ext. intros r. apply kinetic_grouping.
Qed.

Lemma kin_guards (alpha Tc : R) (x : nd) :
  kin_defined Tc x ->
  float_div_guard x (Scalar Tc) = Ok tt
  /\ float_div_guard (Scalar (alpha / 2 * 1))
                     (Scalar 1 - (x / Scalar Tc) ** 4)%nd = Ok tt.
Proof.
  intros [HTc Hx]. destruct x as [r|l]; [|split; reflexivity].
  cbn. destruct (Req_dec_T Tc 0) as [E|_]; [contradiction|].
  destruct (Req_dec_T (1 - r / Tc * (r / Tc * (r / Tc * (r / Tc * 1)))) 0) as [E|_];
    [|split; reflexivity].
  exfalso. apply Hx. simpl. lra.
Qed.


Lemma kinfunc_default_Tc (f0 alpha : R) (rest : list R) (x : nd) :
  length rest <> 1%nat -> kin_defined (12 / 10) x ->
  kinfunc (f0 :: alpha :: rest) x
  = ([Print "Assuming Tc = 1.20 K"],
     Ok (nd_map (kinetic_formula f0 alpha (12 / 10)) x)).
Proof.
  intros Hlen Hd. destruct (kin_guards alpha (12 / 10) x Hd) as [G1 G2].
  unfold kinfunc, bind, lift, ret, tell.
  cbn [getitem nth_error length fst snd app].
  destruct rest as [|r [|r' rest]]; [|simpl in Hlen; lia|];
    cbn [Nat.eqb length fst snd app]; rewrite G1; cbn [fst snd app];
    rewrite G2; cbn [fst snd app]; rewrite kinfunc_body; reflexivity.
Qed.




(** The power sum of [polyfunc], started at exponent [k]. *)
Lemma poly_loop (x : R) (p : list R) :
  forall (k : nat) (acc : R),
    fold_left (fun (y : nd) (nP : nat * R) =>
                 (y + Scalar (snd nP) * Scalar x ** (fst nP))%nd)
              (combine (seq k (length p)) p) (Scalar acc)
    = Scalar (acc + x ^ k * horner p x).
Proof.
  induction p as [|a p IH]; intros k acc; simpl.
  - f_equal. ring.
  - rewrite IH. f_equal. simpl. ring.
Qed.

Lemma polyfunc_horner (p : list R) (x : R) :
  polyfunc p (Scalar x) = Scalar (horner p x).
Proof.
  unfold polyfunc, enumerate. rewrite poly_loop. f_equal. simpl. ring.
Qed.

(** C9: the params-first and the x-first variadic polynomial are the same
    function of [(p, x)]; at a real x both are the polynomial
    [p[0] + p[1]·x + p[2]·x² + ...]. *)
Theorem polyfunc_conventions_agree (p : list R) (x : nd) :
  polyfunc p x = polyfunc_v2 x p
  /\ forall r : R,
       polyfunc p (Scalar r) = Scalar (horner p r)
       /\ polyfunc_v2 (Scalar r) p = Scalar (horner p r).
Proof.
  split; [reflexivity|]. intros r. split; apply polyfunc_horner.
Qed.

(* ================================================================= *)
(** * Engines and wrappers: properties                                *)
(* ================================================================= *)

Lemma bind_outcome_Ok {A B} (m : M A) (k : A -> M B) (b : B) :
  outcome (bind m k) = Ok b ->
  exists a, outcome m = Ok a /\ outcome (k a) = Ok b.
Proof.
  unfold outcome, bind. destruct (snd m) as [a|e]; simpl; [|discriminate].
  intros H. now exists a.
Qed.

Lemma bind_log_Ok {A B} (m : M A) (k : A -> M B) (a : A) :
  outcome m = Ok a -> log (bind m k) = log m ++ log (k a).
Proof. unfold outcome, log, bind. now intros ->. Qed.

Lemma bind_log_Raise {A B} (m : M A) (k : A -> M B) (e : pyexn) :
  outcome m = Raise e -> log (bind m k) = log m.
Proof. unfold outcome, log, bind. intros ->. simpl. apply app_nil_r. Qed.

(** ** C3: the covariance that cannot be converted *)

(** When [np.diag] refuses the covariance and nothing is plotted,
    [fitbetter] prints the covariance and the message; without
    diagnostics it returns the best-fit parameters, with diagnostics the
    [return] names the unbound [fitparam_errors]. *)
Lemma fitbetter_unconvertible
    (curve_fit : (nd -> list R -> M nd) -> list R -> list R -> list R
                 -> M (list R * covariance))
    (best : list R) (cov : covariance) (l0 : list event)
    (xdata ydata p0 : list R) (f : nd -> list R -> M nd) (po : plotargs) :
  curve_fit f xdata ydata p0 = (l0, Ok (best, cov)) ->
  (exists e, np_diag cov = Raise e) -> showfit po = false ->
  outcome (fitbetter curve_fit xdata ydata f p0 None po false) = Ok (BetParams best)
  /\ outcome (fitbetter curve_fit xdata ydata f p0 None po true)
     = Raise UnboundLocalError
  /\ log (fitbetter curve_fit xdata ydata f p0 None po true)
     = CallCurveFit f xdata ydata p0 :: l0 ++
       [PrintCov cov;
        Print "Error encountered in calculating errors on fit parameters. This may result from a very flat parameter space"].
Proof.
  intros Hfit [e He] Hshow.
  unfold fitbetter, outcome, log, bind, tell, ret, raise, when.
  cbn [restrict fst snd]. rewrite Hfit. cbn [fst snd]. rewrite He.
  cbn [fst snd]. rewrite Hshow. cbn [fst snd app].
  rewrite !app_nil_r. repeat split; reflexivity.
Qed.

(** C3 (on the code): a three-point quadratic fitted with three
    parameters, where the optimizer returns the bare scalar [inf] for the
    covariance.  With [show_diagnostics=True] the call ends in
    [UnboundLocalError] after the message; only without diagnostics are
    the best-fit parameters returned. *)
Theorem fitbetter_diagnostics_abort :
  let run := fitbetter (curve_fit_returning [2; 3; -1] CovInf)
                       [0; 1; 2] [2; 4; 4]
                       (fun x p => ret (polyfunc_v2 x p)) [0; 0; 0] None quiet in
  outcome (run true) = Raise UnboundLocalError
  /\ outcome (run false) = Ok (BetParams [2; 3; -1])
  /\ In (Print "Error encountered in calculating errors on fit parameters. This may result from a very flat parameter space")
        (log (run true)).
Proof.
  cbv zeta.
  destruct (fitbetter_unconvertible (curve_fit_returning [2; 3; -1] CovInf)
              [2; 3; -1] CovInf [] [0; 1; 2] [2; 4; 4] [0; 0; 0]
              (fun x p => ret (polyfunc_v2 x p)) quiet) as (H1 & H2 & H3).
  - reflexivity.
  - exists ValueError. reflexivity.
  - reflexivity.
  - rewrite H1, H2, H3. repeat split. simpl. tauto.
Qed.

(** ** C4: wrappers without a heuristic, called without guesses *)

(** C4 (as stated): no error is surfaced by [fitpoly] and [fit_parabola]:
    without guesses they print the message and return [None] normally;
    and the [TypeError] of [fit_double_lor] is not about guesses, it is
    raised with guesses supplied as well. *)
Lemma no_guess_returns_None :
  fitpoly (curve_fit_returning [2; 3; -1] CovInf) [0; 1; 2] [2; 4; 4]
          None None quiet true
  = ([Print "Please specify fit parameters in function input"], Ok None)
  /\ fit_parabola (curve_fit_returning [2; 3; -1] CovInf) [0; 1; 2] [2; 4; 4]
                  None None quiet true
     = ([Print "Please specify fit parameters in function input"], Ok None)
  /\ fit_double_lor [0; 1; 2] [2; 4; 4] (Some [1; 1; 1; 1; 1; 1; 1]) None quiet
     = ([], Raise TypeError).
Proof. repeat split. Qed.

(** C4 (amended): with [fitparams] omitted, each of the five wrappers emits its
    message and nothing else, never enters an optimizer, and hands back
    no parameters: [fit_double_lor], [fit_N_gauss] and
    [fit_kinetic_fraction] end in [TypeError], [fitpoly] and
    [fit_parabola] return [None]. *)
Theorem no_guess_no_fit
    (leastsq : (list R -> M nd) -> list R -> M (list R * Z))
    (curve_fit : (nd -> list R -> M nd) -> list R -> list R -> list R
                 -> M (list R * covariance))
    (xdata ydata : list R) (domain : option (R * R)) (po : plotargs)
    (flag : bool) :
  let guesses := [Print "Please provide some initial guesses."] in
  let specify := [Print "Please specify fit parameters in function input"] in
  (fit_double_lor xdata ydata None domain po = (guesses, Raise TypeError)
   /\ fit_N_gauss leastsq xdata ydata None domain po flag = (guesses, Raise TypeError)
   /\ fit_kinetic_fraction leastsq xdata ydata None flag domain po
      = (guesses, Raise TypeError)
   /\ fitpoly curve_fit xdata ydata None domain po flag = (specify, Ok None)
   /\ fit_parabola curve_fit xdata ydata None domain po flag = (specify, Ok None))
  /\ (fit_attempted (fit_double_lor xdata ydata None domain po) = false
      /\ fit_attempted (fit_N_gauss leastsq xdata ydata None domain po flag) = false
      /\ fit_attempted (fit_kinetic_fraction leastsq xdata ydata None flag domain po)
         = false
      /\ fit_attempted (fitpoly curve_fit xdata ydata None domain po flag) = false
      /\ fit_attempted (fit_parabola curve_fit xdata ydata None domain po flag)
         = false).
Proof.
  cbv zeta.
  assert (H : fit_double_lor xdata ydata None domain po
              = ([Print "Please provide some initial guesses."], Raise TypeError)
          /\ fit_N_gauss leastsq xdata ydata None domain po flag
             = ([Print "Please provide some initial guesses."], Raise TypeError)
          /\ fit_kinetic_fraction leastsq xdata ydata None flag domain po
             = ([Print "Please provide some initial guesses."], Raise TypeError)
          /\ fitpoly curve_fit xdata ydata None domain po flag
             = ([Print "Please specify fit parameters in function input"], Ok None)
          /\ fit_parabola curve_fit xdata ydata None domain po flag
             = ([Print "Please specify fit parameters in function input"], Ok None)).
  { repeat split; try reflexivity; destruct flag; reflexivity. }
  split; [exact H|].
  destruct H as (H1 & H2 & H3 & H4 & H5).
  rewrite H1, H2, H3, H4, H5. repeat split.
Qed.

(** ** C7: sign of the half-width *)

Lemma nth_error_setitem {A} (l : list A) (i : nat) (v w : A) :
  nth_error l i = Some w -> nth_error (setitem l i v) i = Some v.
Proof.
  revert i. induction l as [|h t IH]; intros [|i] H; simpl in *; try discriminate.
  - reflexivity.
  - now apply IH.
Qed.

(** With diagnostics on, [fitbetter] returns the tuple or raises. *)
Lemma fitbetter_diag_tuple
    (curve_fit : (nd -> list R -> M nd) -> list R -> list R -> list R
                 -> M (list R * covariance))
    (xdata ydata p0 : list R) (f : nd -> list R -> M nd)
    (domain : option (R * R)) (po : plotargs) (r : fitbetter_ret) :
  outcome (fitbetter curve_fit xdata ydata f p0 domain po true) = Ok r ->
  exists best errs, r = BetDiag best errs.
Proof.
  unfold fitbetter. intros H.
  apply bind_outcome_Ok in H. destruct H as (_ & _ & H).
  apply bind_outcome_Ok in H. destruct H as (fit & _ & H).
  apply bind_outcome_Ok in H. destruct H as (errs & _ & H).
  apply bind_outcome_Ok in H. destruct H as (_ & _ & H).
  destruct errs as [errs|]; [|discriminate].
  injection H as <-. eauto.
Qed.

(** C7: whenever [fitlor] returns, entry 3 of the returned parameter
    vector is the absolute value of what the optimizer produced there, so
    it is non-negative. *)
Theorem fitlor_hwhm_nonneg
    (curve_fit : (nd -> list R -> M nd) -> list R -> list R -> list R
                 -> M (list R * covariance))
    (xdata ydata : list R) (fitparams : option (list R))
    (domain : option (R * R)) (po : plotargs) (debug verbose : bool)
    (p1 : list R) (p1_errors : list npfloat) :
  outcome (fitlor curve_fit xdata ydata fitparams domain po debug verbose)
  = Ok (p1, p1_errors) ->
  exists hwhm, nth_error p1 3 = Some hwhm /\ 0 <= hwhm.
Proof.
  unfold fitlor. intros H.
  apply bind_outcome_Ok in H. destruct H as (p0 & _ & H).
  apply bind_outcome_Ok in H. destruct H as (_ & _ & H).
  apply bind_outcome_Ok in H. destruct H as (r & Hr & H).
  apply fitbetter_diag_tuple in Hr. destruct Hr as (best & errs & ->).
  apply bind_outcome_Ok in H. destruct H as (_ & _ & H).
  destruct (nth_error best 3) as [w|] eqn:Hw; [|discriminate].
  injection H as <- <-.
  exists (Rabs w). split; [|apply Rabs_pos].
  eapply nth_error_setitem; eassumption.
Qed.

Lemma fitlor_hwhm_nonneg_witness :
  exists hwhm,
    nth_error (setitem [5; 3; 4; -1 / 2] 3 (Rabs (-1 / 2))) 3 = Some hwhm
    /\ 0 <= hwhm.
Proof.
  apply (fitlor_hwhm_nonneg
           (curve_fit_returning [5; 3; 4; -1 / 2] (CovMatrix []))
           [0; 1; 2] [5; 8; 5] (Some [5; 3; 1; 1]) None quiet false false
           (setitem [5; 3; 4; -1 / 2] 3 (Rabs (-1 / 2))) []).
  reflexivity.
Defined.

(** ** C6: the peak heuristic of [fitlor] and [fitgauss] *)

Lemma fold_max_spec (t : list R) :
  forall h,
    let m := fold_left (fun m v => if Rlt_dec m v then v else m) t h in
    h <= m /\ Forall (fun v => v <= m) t /\ (m = h \/ In m t).
Proof.
  induction t as [|v t IH]; intros h; simpl.
  - repeat split; [lra|constructor|now left].
  - destruct (Rlt_dec h v) as [Hlt|Hge].
    + destruct (IH v) as (H1 & H2 & H3). repeat split.
      * lra.
      * constructor; assumption.
      * right. destruct H3 as [->|H3]; [now left|now right].
    + destruct (IH h) as (H1 & H2 & H3). repeat split.
      * assumption.
      * constructor; [lra|assumption].
      * destruct H3 as [H3|H3]; [now left|right; now right].
Qed.

Lemma fold_min_spec (t : list R) :
  forall h,
    let m := fold_left (fun m v => if Rlt_dec v m then v else m) t h in
    m <= h /\ Forall (fun v => m <= v) t /\ (m = h \/ In m t).
Proof.
  induction t as [|v t IH]; intros h; simpl.
  - repeat split; [lra|constructor|now left].
  - destruct (Rlt_dec v h) as [Hlt|Hge].
    + destruct (IH v) as (H1 & H2 & H3). repeat split.
      * lra.
      * constructor; assumption.
      * right. destruct H3 as [->|H3]; [now left|now right].
    + destruct (IH h) as (H1 & H2 & H3). repeat split.
      * assumption.
      * constructor; [lra|assumption].
      * destruct H3 as [H3|H3]; [now left|right; now right].
Qed.

Lemma py_max_spec (l : list R) :
  l <> [] -> exists m, py_max l = Ok m /\ maximum_of l m.
Proof.
  destruct l as [|h t]; [congruence|]. intros _.
  destruct (fold_max_spec t h) as (H1 & H2 & H3).
  eexists. split; [reflexivity|]. split.
  - destruct H3 as [->|H3]; [now left|now right].
  - constructor; assumption.
Qed.

Lemma py_min_spec (l : list R) :
  l <> [] -> exists m, py_min l = Ok m /\ minimum_of l m.
Proof.
  destruct l as [|h t]; [congruence|]. intros _.
  destruct (fold_min_spec t h) as (H1 & H2 & H3).
  eexists. split; [reflexivity|]. split.
  - destruct H3 as [->|H3]; [now left|now right].
  - constructor; assumption.
Qed.

Lemma argmax_from_spec (t : list R) :
  forall (pre : list R) (best_i : nat) (best : R),
    nth_error pre best_i = Some best ->
    Forall (fun v => v <= best) pre ->
    (forall j v, (j < best_i)%nat -> nth_error pre j = Some v -> v < best) ->
    first_argmax (pre ++ t) (argmax_from best_i best (length pre) t).
Proof.
  induction t as [|v t IH]; intros pre best_i best Hnth Hall Hbefore.
  - simpl. rewrite app_nil_r. exists best. repeat split; try assumption.
    eapply nth_error_In; eassumption.
  - assert (Hin : (best_i < length pre)%nat).
    { apply nth_error_Some. congruence. }
    replace (pre ++ v :: t) with ((pre ++ [v]) ++ t)
      by (rewrite <- app_assoc; reflexivity).
    simpl. replace (S (length pre)) with (length (pre ++ [v]))
      by (rewrite length_app; simpl; lia).
    destruct (Rlt_dec best v) as [Hlt|Hge].
    + apply IH.
      * rewrite nth_error_app2 by lia. now rewrite Nat.sub_diag.
      * apply Forall_app. split.
        -- eapply Forall_impl; [|exact Hall]. intros u Hu. simpl in Hu. lra.
        -- constructor; [lra|constructor].
      * intros j u Hj Hu. rewrite nth_error_app1 in Hu by assumption.
        apply nth_error_In in Hu. rewrite Forall_forall in Hall.
        specialize (Hall u Hu). simpl in Hall. lra.
    + apply IH.
      * now rewrite nth_error_app1.
      * apply Forall_app. split; [assumption|]. constructor; [lra|constructor].
      * intros j u Hj Hu. rewrite nth_error_app1 in Hu by lia.
        eapply Hbefore; eassumption.
Qed.

Lemma np_argmax_spec (l : list R) :
  l <> [] -> exists i, np_argmax l = Ok i /\ first_argmax l i /\ (i < length l)%nat.
Proof.
  destruct l as [|h t]; [congruence|]. intros _.
  pose proof (argmax_from_spec t [h] 0 h eq_refl) as H.
  simpl in H. eexists. split; [reflexivity|].
  assert (Hf : first_argmax (h :: t) (argmax_from 0 h 1 t)).
  { apply H; [repeat constructor; lra|]. intros j v Hj. lia. }
  split; [exact Hf|].
  destruct Hf as (m & Hm & _). apply nth_error_Some. congruence.
Qed.

Lemma last_default {A} (b : A) (t : list A) (d d' : A) :
  last (b :: t) d = last (b :: t) d'.
Proof.
  revert b. induction t as [|c t IH]; intros b; [reflexivity|].
  change (last (c :: t) d = last (c :: t) d'). apply IH.
Qed.

Lemma nth_error_last {A} (l : list A) (y0 : A) :
  nth_error (y0 :: l) (length l) = Some (last l y0).
Proof.
  revert y0. induction l as [|a t IH]; intros y0; [reflexivity|].
  simpl length. cbn [nth_error]. rewrite IH. f_equal.
  destruct t as [|b t']; [reflexivity|].
  change (last (b :: t') a = last (b :: t') y0). apply last_default.
Qed.

(** The vector the inline heuristic builds, for width divisor [w]. *)
Lemma peak_guess_value (fx fy : list R) :
  fy <> [] -> length fx = length fy ->
  exists y0 yl ymax ymin i c xmax xmin,
    nth_error fy 0 = Some y0 /\ nth_error fy (length fy - 1) = Some yl
    /\ maximum_of fy ymax /\ minimum_of fy ymin
    /\ first_argmax fy i /\ nth_error fx i = Some c
    /\ maximum_of fx xmax /\ minimum_of fx xmin
    /\ forall w : R,
         (y0 <- getitem fy 0 ;; yl <- getlast fy ;;
          ymax <- py_max fy ;; ymin <- py_min fy ;;
          i <- np_argmax fy ;; c <- getitem fx i ;;
          xmax <- py_max fx ;; xmin <- py_min fx ;;
          Ok [(y0 + yl) / 2; ymax - ymin; c; (xmax - xmin) / w])%res
         = Ok [(y0 + yl) / 2; ymax - ymin; c; (xmax - xmin) / w].
Proof.
  intros Hy Hlen.
  assert (Hx : fx <> []) by (destruct fx, fy; simpl in *; congruence).
  destruct (py_max_spec fy Hy) as (ymax & Eymax & Hymax).
  destruct (py_min_spec fy Hy) as (ymin & Eymin & Hymin).
  destruct (py_max_spec fx Hx) as (xmax & Exmax & Hxmax).
  destruct (py_min_spec fx Hx) as (xmin & Exmin & Hxmin).
  destruct (np_argmax_spec fy Hy) as (i & Ei & Hi & Hilt).
  destruct (nth_error fx i) as [c|] eqn:Ec;
    [|apply nth_error_None in Ec; lia].
  destruct fy as [|y0 fy']; [congruence|].
  exists y0, (last fy' y0), ymax, ymin, i, c, xmax, xmin.
  repeat split; try assumption; try apply Hymax; try apply Hymin;
    try apply Hxmax; try apply Hxmin.
  - simpl length. rewrite Nat.sub_succ, Nat.sub_0_r. apply nth_error_last.
  - intros w. cbn [getitem nth_error getlast rbind].
    rewrite Eymax, Eymin, Ei. cbn [rbind]. unfold getitem. rewrite Ec.
    cbn [rbind]. rewrite Exmax, Exmin. reflexivity.
Qed.

(** C6: on non-empty (domain-restricted) data with as many x as y, the
    start vector [fitlor] hands to its optimizer when [fitparams] is
    omitted is [(first y + last y)/2, max y − min y, x at the first
    argmax of y, (max x − min x)/10]; [fitgauss] builds the same vector
    with the width [(max x − min x)/3] (and drops its first entry when
    [no_offset] is set). *)
Theorem peak_guess_vector
    (leastsq : (list R -> M nd) -> list R -> M (list R * Z))
    (curve_fit : (nd -> list R -> M nd) -> list R -> list R -> list R
                 -> M (list R * covariance))
    (xdata ydata : list R) (domain : option (R * R)) (po : plotargs)
    (debug verbose : bool) :
  let fx := fst (restrict xdata ydata domain) in
  let fy := snd (restrict xdata ydata domain) in
  fy <> [] -> length fx = length fy ->
  exists y0 yl ymax ymin i c xmax xmin,
    nth_error fy 0 = Some y0 /\ nth_error fy (length fy - 1) = Some yl
    /\ maximum_of fy ymax /\ minimum_of fy ymin
    /\ first_argmax fy i /\ nth_error fx i = Some c
    /\ maximum_of fx xmax /\ minimum_of fx xmin
    /\ first_start (log (fitlor curve_fit xdata ydata None domain po debug verbose))
       = Some [(y0 + yl) / 2; ymax - ymin; c; (xmax - xmin) / 10]
    /\ first_start (log (fitgauss leastsq xdata ydata None false domain po))
       = Some [(y0 + yl) / 2; ymax - ymin; c; (xmax - xmin) / 3]
    /\ first_start (log (fitgauss leastsq xdata ydata None true domain po))
       = Some [ymax - ymin; c; (xmax - xmin) / 3].
Proof.
  intros fx fy Hy Hlen.
  destruct (peak_guess_value fx fy Hy Hlen)
    as (y0 & yl & ymax & ymin & i & c & xmax & xmin
        & H0 & Hl & Hmax & Hmin & Hi & Hc & Hxmax & Hxmin & E).
  exists y0, yl, ymax, ymin, i, c, xmax, xmin.
  repeat (split; [assumption|]).
  pose proof (E 10) as E10. pose proof (E 3) as E3'. clear E.
  subst fx fy.
  repeat split.
  - unfold fitlor. cbv zeta. rewrite E10.
    unfold first_start, first_call, log, fitbetter, bind, lift, tell, ret, when.
    destruct debug; reflexivity.
  - unfold fitgauss. cbv zeta. rewrite E3'.
    unfold first_start, first_call, log, fitgeneral, bind, lift, tell, ret, when.
    reflexivity.
  - unfold fitgauss. cbv zeta. rewrite E3'.
    unfold first_start, first_call, log, fitgeneral, bind, lift, tell, ret, when.
    reflexivity.
Qed.

Lemma peak_guess_vector_witness :
  let fx := [0; 1; 2] in
  let fy := [5; 8; 5] in
  let cf := curve_fit_returning [5; 3; 1; 1] (CovMatrix []) in
  let ls := leastsq_returning [5; 3; 1; 1] in
  exists y0 yl ymax ymin i c xmax xmin,
    nth_error fy 0 = Some y0 /\ nth_error fy (length fy - 1) = Some yl
    /\ maximum_of fy ymax /\ minimum_of fy ymin
    /\ first_argmax fy i /\ nth_error fx i = Some c
    /\ maximum_of fx xmax /\ minimum_of fx xmin
    /\ first_start (log (fitlor cf fx fy None None quiet false false))
       = Some [(y0 + yl) / 2; ymax - ymin; c; (xmax - xmin) / 10]
    /\ first_start (log (fitgauss ls fx fy None false None quiet))
       = Some [(y0 + yl) / 2; ymax - ymin; c; (xmax - xmin) / 3]
    /\ first_start (log (fitgauss ls fx fy None true None quiet))
       = Some [ymax - ymin; c; (xmax - xmin) / 3].
Proof.
  apply (peak_guess_vector
           (leastsq_returning [5; 3; 1; 1])
           (curve_fit_returning [5; 3; 1; 1] (CovMatrix []))
           [0; 1; 2] [5; 8; 5] None quiet false false).
  - discriminate.
  - reflexivity.
Defined.

(** ** C10: the model [fitdecaysin] fits *)








(* ================================================================= *)
(** * DomainSelector: bounds, empty ranges, composition               *)
(* ================================================================= *)

(** On ascending x, a range that is empty ([hi <= lo]), lies wholly above
    the data, or lies wholly at or below its first value selects nothing:
    both outputs are empty and nothing is raised. *)
Theorem selectdomain_empty_range (xdata ydata : list R) (lo hi : R) :
  StronglySorted Rle xdata -> length xdata = length ydata ->
  (hi <= lo \/ Forall (fun v => v < lo) xdata \/ Forall (fun v => hi <= v) xdata) ->
  selectdomainR xdata ydata (lo, hi) = ([], []).
Proof.
  intros Hs Hlen Hcase.
  rewrite (selectdomainR_filter xdata ydata lo hi Hs Hlen).
  assert (Hx : Forall (fun v => in_domain (lo, hi) v = false) xdata).
  { apply Forall_forall. intros v Hv.
    destruct (in_domain (lo, hi) v) eqn:E; [|reflexivity].
    apply in_domain_spec in E.
    destruct Hcase as [H|[H|H]].
    - lra.
    - rewrite Forall_forall in H. specialize (H v Hv). simpl in H. lra.
    - rewrite Forall_forall in H. specialize (H v Hv). simpl in H. lra. }
  rewrite (filter_none _ xdata Hx). f_equal.
  rewrite filter_none; [reflexivity|].
  apply Forall_forall. intros [a b] Hab. cbn [fst].
  rewrite Forall_forall in Hx. apply Hx. eapply in_combine_l; eauto.
Qed.

Lemma selectdomain_empty_range_witness :
  selectdomainR [1; 2; 3] [10; 20; 30] (2, 2) = ([], []).
Proof.
  apply (selectdomain_empty_range [1; 2; 3] [10; 20; 30] 2 2).
  - repeat constructor; lra.
  - reflexivity.
  - left. lra.
Defined.

Lemma StronglySorted_filter {A} (Rel : A -> A -> Prop) (p : A -> bool) (l : list A) :
  StronglySorted Rel l -> StronglySorted Rel (filter p l).
Proof.
  induction 1 as [|h t Hs IH Hall]; simpl; [constructor|].
  destruct (p h); [|assumption].
  constructor; [assumption|].
  apply Forall_forall. intros v Hv. apply filter_In in Hv.
  rewrite Forall_forall in Hall. now apply Hall.
Qed.

Lemma map_fst_filter_combine {A B} (p : A -> bool) (x : list A) (y : list B) :
  length x = length y ->
  map fst (filter (fun xy => p (fst xy)) (combine x y)) = filter p x.
Proof.
  revert y. induction x as [|a x IH]; intros [|b y] H; simpl in *; try easy.
  destruct (p a); simpl; [f_equal|]; apply IH; lia.
Qed.

Lemma combine_fst_snd {A B} (l : list (A * B)) :
  combine (map fst l) (map snd l) = l.
Proof.
  induction l as [|[a b] l IH]; simpl; [reflexivity|]. now rewrite IH.
Qed.

Lemma filter_filter {A} (p q : A -> bool) (l : list A) :
  filter q (filter p l) = filter (fun v => p v && q v) l.
Proof.
  induction l as [|a l IH]; simpl; [reflexivity|].
  destruct (p a); simpl; [destruct (q a); simpl; now rewrite IH|assumption].
Qed.

Lemma in_domain_intersection (d1 d2 : R * R) (v : R) :
  in_domain (Rmax (fst d1) (fst d2), Rmin (snd d1) (snd d2)) v
  = in_domain d1 v && in_domain d2 v.
Proof.
  destruct d1 as [lo1 hi1], d2 as [lo2 hi2]. cbn [fst snd].
  apply eq_true_iff_eq. rewrite andb_true_iff, !in_domain_spec.
  pose proof (Rmax_l lo1 lo2). pose proof (Rmax_r lo1 lo2).
  pose proof (Rmin_l hi1 hi2). pose proof (Rmin_r hi1 hi2).
  split.
  - intros [Hlo Hhi]. lra.
  - intros [[Ha Hb] [Hc Hd]]. split.
    + apply Rmax_lub; assumption.
    + apply Rmin_glb_lt; assumption.
Qed.

(** The pair of sequences a restriction returns, as one filter over the
    points. *)
Lemma selectdomainR_points (x y : list R) (d : R * R) :
  StronglySorted Rle x -> length x = length y ->
  let r := selectdomainR x y d in
  combine (fst r) (snd r) = filter (fun xy => in_domain d (fst xy)) (combine x y)
  /\ StronglySorted Rle (fst r) /\ length (fst r) = length (snd r).
Proof.
  intros Hs Hlen. destruct d as [lo hi]. cbv zeta.
  rewrite (selectdomainR_filter x y lo hi Hs Hlen). cbn [fst snd].
  rewrite <- (map_fst_filter_combine (in_domain (lo, hi)) x y Hlen).
  split; [apply combine_fst_snd|]. split.
  - rewrite (map_fst_filter_combine (in_domain (lo, hi)) x y Hlen).
    now apply StronglySorted_filter.
  - now rewrite !length_map.
Qed.

(** Restricting ascending data to one range and the result to a second
    range is the same as restricting once to the intersection of the two
    ranges; in particular restricting again to the same range changes
    nothing. *)
Theorem selectdomain_twice (x y : list R) (d1 d2 : R * R) :
  StronglySorted Rle x -> length x = length y ->
  let r1 := selectdomainR x y d1 in
  selectdomainR (fst r1) (snd r1) d2
  = selectdomainR x y (Rmax (fst d1) (fst d2), Rmin (snd d1) (snd d2))
  /\ selectdomainR (fst r1) (snd r1) d1 = r1.
Proof.
  intros Hs Hlen r1.
  destruct (selectdomainR_points x y d1 Hs Hlen) as (Hc & Hs1 & Hlen1).
  fold r1 in Hc, Hs1, Hlen1.
  assert (Hgen : forall d,
             selectdomainR (fst r1) (snd r1) d
             = (filter (fun v => in_domain d1 v && in_domain d v) x,
                map snd (filter (fun xy => in_domain d1 (fst xy) && in_domain d (fst xy))
                                (combine x y)))).
  { intros [lo hi].
    rewrite (selectdomainR_filter (fst r1) (snd r1) lo hi Hs1 Hlen1).
    rewrite Hc, filter_filter. f_equal.
    subst r1. destruct d1 as [lo1 hi1].
    rewrite (selectdomainR_filter x y lo1 hi1 Hs Hlen). cbn [fst].
    apply filter_filter. }
  split.
  - rewrite Hgen.
    rewrite (selectdomainR_filter x y _ _ Hs Hlen). f_equal.
    + apply filter_ext. intros v. symmetry. apply in_domain_intersection.
    + f_equal. apply filter_ext. intros xy. symmetry. apply in_domain_intersection.
  - rewrite Hgen. subst r1. destruct d1 as [lo1 hi1].
    rewrite (selectdomainR_filter x y lo1 hi1 Hs Hlen). f_equal.
    + apply filter_ext. intros v. apply andb_diag.
    + f_equal. apply filter_ext. intros xy. apply andb_diag.
Qed.

Lemma selectdomain_twice_witness :
  let x : list R := [1; 2; 3; 4] in
  let y : list R := [10; 20; 30; 40] in
  let d1 : R * R := (1, 4) in
  let d2 : R * R := (2, 9) in
  let r1 := selectdomainR x y d1 in
  selectdomainR (fst r1) (snd r1) d2
  = selectdomainR x y (Rmax (fst d1) (fst d2), Rmin (snd d1) (snd d2))
  /\ selectdomainR (fst r1) (snd r1) d1 = r1.
Proof.
  apply (selectdomain_twice [1; 2; 3; 4] [10; 20; 30; 40] (1, 4) (2, 9)).
  - repeat constructor; lra.
  - reflexivity.
Defined.

(* ================================================================= *)
(** * zipsort                                                         *)
(* ================================================================= *)


Lemma insert_by_value_perm (v : nat * R) (s : list (nat * R)) :
  Permutation (insert_by_value v s) (v :: s).
Proof.
  induction s as [|u s IH]; simpl; [apply Permutation_refl|].
  destruct (Rle_dec (snd v) (snd u)); [apply Permutation_refl|].
  eapply Permutation_trans; [apply perm_skip, IH|apply perm_swap].
Qed.

Lemma sort_indexed_perm (l : list (nat * R)) : Permutation (sort_indexed l) l.
Proof.
  induction l as [|v l IH]; simpl; [constructor|].
  eapply Permutation_trans; [apply insert_by_value_perm|now apply perm_skip].
Qed.

Lemma insert_by_value_sorted (v : nat * R) (s : list (nat * R)) :
  StronglySorted (fun u w => snd u <= snd w) s ->
  StronglySorted (fun u w => snd u <= snd w) (insert_by_value v s).
Proof.
  induction 1 as [|u s Hs IH Hall]; simpl.
  - repeat constructor.
  - destruct (Rle_dec (snd v) (snd u)) as [Hle|Hgt].
    + constructor; [constructor; assumption|].
      constructor; [assumption|].
      eapply Forall_impl; [|exact Hall]. intros w Hw. simpl in Hw. lra.
    + constructor; [assumption|].
      apply Forall_forall. intros w Hw.
      apply (Permutation_in _ (insert_by_value_perm v s)) in Hw.
      destruct Hw as [<-|Hw]; [lra|].
      rewrite Forall_forall in Hall. now apply Hall.
Qed.

Lemma sort_indexed_sorted (l : list (nat * R)) :
  StronglySorted (fun u w => snd u <= snd w) (sort_indexed l).
Proof.
  induction l as [|v l IH]; simpl; [constructor|].
  now apply insert_by_value_sorted.
Qed.

Lemma StronglySorted_map_snd (s : list (nat * R)) :
  StronglySorted (fun u w => snd u <= snd w) s -> StronglySorted Rle (map snd s).
Proof.
  induction 1 as [|u s Hs IH Hall]; simpl; constructor; [assumption|].
  apply Forall_forall. intros w Hw. apply in_map_iff in Hw.
  destruct Hw as (z & <- & Hz). rewrite Forall_forall in Hall. now apply Hall.
Qed.

Lemma in_enumerate_from {A} (l : list A) :
  forall (k i : nat) (v : A),
    In (i, v) (combine (seq k (length l)) l) ->
    (k <= i)%nat /\ nth_error l (i - k) = Some v.
Proof.
  induction l as [|a l IH]; intros k i v H; simpl in H; [contradiction|].
  destruct H as [H|H].
  - injection H as <- <-. split; [lia|]. now rewrite Nat.sub_diag.
  - apply IH in H. destruct H as [Hk Hn]. split; [lia|].
    replace (i - k)%nat with (S (i - S k)) by lia. exact Hn.
Qed.

Lemma in_enumerate {A} (l : list A) (i : nat) (v : A) :
  In (i, v) (combine (seq 0 (length l)) l) -> nth_error l i = Some v.
Proof.
  intros H. apply in_enumerate_from in H. now rewrite Nat.sub_0_r in H.
Qed.

Lemma np_take_indexed {A} (l : list A) (s : list (nat * A)) :
  (forall i v, In (i, v) s -> nth_error l i = Some v) ->
  np_take l (map fst s) = Ok (map snd s).
Proof.
  induction s as [|[i v] s IH]; intros H; simpl; [reflexivity|].
  unfold getitem. rewrite (H i v) by now left. cbn [rbind].
  rewrite IH; [reflexivity|]. intros j w Hj. apply H. now right.
Qed.

Lemma np_take_in_range (y : list R) (inds : list nat) :
  Forall (fun i => (i < length y)%nat) inds ->
  np_take y inds = Ok (map (fun i => nth i y 0) inds).
Proof.
  induction 1 as [|i inds Hi _ IH]; simpl; [reflexivity|].
  unfold getitem. rewrite (nth_error_nth' y 0 Hi). cbn [rbind].
  now rewrite IH.
Qed.

Lemma np_take_out_of_range (y : list R) (inds : list nat) :
  Exists (fun i => (length y <= i)%nat) inds -> np_take y inds = Raise IndexError.
Proof.
  induction 1 as [i inds Hi|i inds _ IH]; simpl.
  - unfold getitem. apply nth_error_None in Hi. now rewrite Hi.
  - unfold getitem. destruct (nth_error y i); [|reflexivity].
    cbn [rbind]. now rewrite IH.
Qed.

Lemma combine_as_enumerate (l : list R) :
  forall (y pre : list R),
    (length l <= length y)%nat ->
    combine l y
    = map (fun iv : nat * R => (snd iv, nth (fst iv) (pre ++ y) 0))
          (combine (seq (length pre) (length l)) l).
Proof.
  induction l as [|a l IH]; intros y pre Hlen; [reflexivity|].
  destruct y as [|b y]; simpl in Hlen; [lia|].
  simpl. f_equal.
  - f_equal. rewrite app_nth2 by lia. now rewrite Nat.sub_diag.
  - specialize (IH y (pre ++ [b])).
    rewrite length_app, <- app_assoc in IH. simpl in IH.
    rewrite Nat.add_1_r in IH. apply IH. lia.
Qed.

(** What [zipsort] returns when there is a y for every x. *)
Lemma zipsort_value (xdata ydata : list R) :
  (length xdata <= length ydata)%nat ->
  let s := sort_indexed (combine (seq 0 (length xdata)) xdata) in
  zipsort xdata ydata = Ok (map snd s, map (fun i => nth i ydata 0) (map fst s)).
Proof.
  intros Hlen s. unfold zipsort, argsort. fold s.
  assert (Hin : forall i v, In (i, v) s -> nth_error xdata i = Some v).
  { intros i v H. apply in_enumerate.
    apply (Permutation_in _ (sort_indexed_perm _)). exact H. }
  rewrite (np_take_indexed xdata s Hin). cbn [rbind].
  rewrite np_take_in_range; [reflexivity|].
  apply Forall_forall. intros i Hi. apply in_map_iff in Hi.
  destruct Hi as ([j v] & <- & Hj). cbn [fst].
  assert (j < length xdata)%nat; [|lia].
  apply nth_error_Some. rewrite (Hin j v Hj). discriminate.
Qed.

Lemma zipsort_spec (xdata ydata : list R) :
  (length xdata <= length ydata)%nat ->
  exists xs ys,
    zipsort xdata ydata = Ok (xs, ys)
    /\ StronglySorted Rle xs
    /\ length xs = length xdata /\ length ys = length xdata
    /\ Permutation (combine xs ys) (combine xdata ydata).
Proof.
  intros Hlen.
  pose proof (zipsort_value xdata ydata Hlen) as E. cbv zeta in E.
  set (s := sort_indexed (combine (seq 0 (length xdata)) xdata)) in *.
  assert (Hs : length s = length xdata).
  { unfold s. rewrite (Permutation_length (sort_indexed_perm _)).
    rewrite length_combine, length_seq. lia. }
  eexists. eexists. split; [exact E|].
  split; [apply StronglySorted_map_snd, sort_indexed_sorted|].
  split; [now rewrite length_map|]. split; [now rewrite !length_map|].
  rewrite (combine_as_enumerate xdata ydata [] Hlen). simpl app. simpl length.
  rewrite map_map.
  assert (Ec : combine (map snd s) (map (fun x => nth (fst x) ydata 0) s)
               = map (fun iv : nat * R => (snd iv, nth (fst iv) ydata 0)) s).
  { clear. induction s as [|u s IH]; simpl; [reflexivity|]. now rewrite IH. }
  rewrite Ec. apply Permutation_map. apply sort_indexed_perm.
Qed.

(** Whatever the input order, [zipsort] returns x ascending and the same
    (x, y) points, co-sorted: the returned pairs are a permutation of the
    input pairs.  Entries of y beyond [len(x)] are dropped silently. *)
Theorem zipsort_sorted_permutation (xdata ydata : list R) :
  (length xdata <= length ydata)%nat ->
  exists xs ys,
    zipsort xdata ydata = Ok (xs, ys)
    /\ StronglySorted Rle xs
    /\ length xs = length xdata /\ length ys = length xdata
    /\ Permutation (combine xs ys) (combine xdata ydata).
Proof.
  intros Hlen.
  destruct (zipsort_spec xdata ydata Hlen) as (xs & ys & E & Hs & Hx & Hy & Hp).
  exists xs, ys. repeat split; assumption.
Qed.

Lemma zipsort_sorted_permutation_witness :
  exists xs ys,
    zipsort [3; 1; 2] [30; 10; 20] = Ok (xs, ys)
    /\ StronglySorted Rle xs
    /\ length xs = length [3; 1; 2] /\ length ys = length [3; 1; 2]
    /\ Permutation (combine xs ys) (combine [3; 1; 2] [30; 10; 20]).
Proof.
  apply (zipsort_sorted_permutation [3; 1; 2] [30; 10; 20]). simpl. lia.
Defined.

(** With fewer y than x, [zipsort] raises [IndexError] when it takes the
    y entries. *)
Theorem zipsort_short_y (xdata ydata : list R) :
  (length ydata < length xdata)%nat ->
  zipsort xdata ydata = Raise IndexError.
Proof.
  intros Hlen. unfold zipsort, argsort.
  set (s := sort_indexed (combine (seq 0 (length xdata)) xdata)).
  assert (Hin : forall i v, In (i, v) s -> nth_error xdata i = Some v).
  { intros i v H. apply in_enumerate.
    apply (Permutation_in _ (sort_indexed_perm _)). exact H. }
  rewrite (np_take_indexed xdata s Hin). cbn [rbind].
  rewrite np_take_out_of_range; [reflexivity|].
  apply Exists_exists.
  destruct (nth_error xdata (length ydata)) as [v|] eqn:Ev;
    [|apply nth_error_None in Ev; lia].
  exists (length ydata). split; [|lia].
  apply in_map_iff. exists (length ydata, v). split; [reflexivity|].
  apply (Permutation_in _ (Permutation_sym (sort_indexed_perm _))).
  clear - Ev. revert Ev. generalize (length ydata) as i.
  assert (G : forall (l : list R) k i, nth_error l i = Some v ->
              In ((k + i)%nat, v) (combine (seq k (length l)) l)).
  { induction l as [|a l IH]; intros k [|i] H; simpl in *; try discriminate.
    - injection H as ->. left. f_equal. lia.
    - right. replace (k + S i)%nat with (S k + i)%nat by lia. now apply IH. }
  intros i Hi. exact (G xdata 0%nat i Hi).
Qed.

Lemma zipsort_short_y_witness : zipsort [3; 1; 2] [30; 10] = Raise IndexError.
Proof. apply (zipsort_short_y [3; 1; 2] [30; 10]). simpl. lia. Defined.

(** Sorting first makes the restriction exact on data in any order: a
    point is in [selectdomain(zipsort(x, y), (lo, hi))] exactly when it is
    an input point with [lo <= x < hi]. *)
Theorem zipsort_then_selectdomain (xdata ydata : list R) (lo hi : R) :
  length xdata = length ydata ->
  exists xs ys,
    zipsort xdata ydata = Ok (xs, ys)
    /\ forall a b : R,
         In (a, b) (combine (fst (selectdomainR xs ys (lo, hi)))
                            (snd (selectdomainR xs ys (lo, hi))))
         <-> In (a, b) (combine xdata ydata) /\ lo <= a < hi.
Proof.
  intros Hlen.
  destruct (zipsort_spec xdata ydata) as
    (xs & ys & E & Hs & Hx & Hy & Hperm); [lia|].
  exists xs, ys. split; [exact E|]. intros a b.
  destruct (selectdomainR_points xs ys (lo, hi) Hs) as (Hc & _ & _); [lia|].
  rewrite Hc, filter_In. cbn [fst]. rewrite in_domain_spec.
  split; intros [Hi Hr]; (split; [|exact Hr]).
  - eapply Permutation_in; eassumption.
  - eapply Permutation_in; [apply Permutation_sym|]; eassumption.
Qed.

Lemma zipsort_then_selectdomain_witness :
  exists xs ys,
    zipsort [3; 1; 2] [30; 10; 20] = Ok (xs, ys)
    /\ forall a b : R,
         In (a, b) (combine (fst (selectdomainR xs ys (1, 3)))
                            (snd (selectdomainR xs ys (1, 3))))
         <-> In (a, b) (combine [3; 1; 2] [30; 10; 20]) /\ 1 <= a < 3.
Proof.
  apply (zipsort_then_selectdomain [3; 1; 2] [30; 10; 20] 1 3). reflexivity.
Defined.

(* ================================================================= *)
(** * GoodnessOfFit: range, degenerate data, shapes                   *)
(* ================================================================= *)

Lemma Rsum_squares_nonneg {A} (f : A -> R) (l : list A) :
  0 <= Rsum (map (fun a => f a ^ 2) l).
Proof.
  induction l as [|a l IH]; simpl; [lra|].
  pose proof (pow2_ge_0 (f a)). simpl in *. lra.
Qed.

(** On data with non-zero total variance the coefficient is a real number
    that never exceeds 1.  (It has no lower bound: the docstring's
    "between 0 and 1" holds on one side only.) *)
Theorem get_rsquare_at_most_one (ys fs : list R) :
  length ys = length fs -> total_ss ys <> 0 ->
  exists r, get_rsquare (map Finite ys) (map Finite fs) = Ok (Finite r) /\ r <= 1.
Proof.
  intros Hlen Htot.
  exists (1 - residual_ss ys fs / total_ss ys).
  split; [now apply get_rsquare_value|].
  assert (Ht : 0 <= total_ss ys)
    by apply (Rsum_squares_nonneg (fun y => y - mean ys) ys).
  assert (Hr : 0 <= residual_ss ys fs)
    by apply (Rsum_squares_nonneg (fun yf : R * R => fst yf - snd yf) (combine ys fs)).
  assert (Hpos : 0 < total_ss ys) by lra.
  assert (Hq : 0 <= residual_ss ys fs / total_ss ys).
  { apply Rmult_le_pos; [assumption|]. left. now apply Rinv_0_lt_compat. }
  lra.
Qed.

Lemma get_rsquare_at_most_one_witness :
  exists r, get_rsquare (map Finite [0; 1]) (map Finite [1; 0]) = Ok (Finite r)
            /\ r <= 1.
Proof.
  apply (get_rsquare_at_most_one [0; 1] [1; 0]).
  - reflexivity.
  - unfold total_ss, mean, Rsum. simpl. intros H. field_simplify in H. lra.
Defined.

(** Observations and fit of different lengths raise [ValueError], unless
    one of the two has a single entry. *)
Theorem get_rsquare_length_mismatch (ydata ydatafit : list npfloat) :
  length ydata <> length ydatafit -> length ydata <> 1%nat ->
  length ydatafit <> 1%nat -> get_rsquare ydata ydatafit = Raise ValueError.
Proof.
  intros Hne H1 H2. unfold get_rsquare, np_broadcast2.
  apply Nat.eqb_neq in Hne. rewrite Hne.
  destruct ydata as [|u [|u' a]]; destruct ydatafit as [|v [|v' b]];
    simpl in *; try reflexivity; try contradiction; congruence.
Qed.

Lemma get_rsquare_length_mismatch_witness :
  get_rsquare [Finite 1; Finite 2; Finite 3] [Finite 1; Finite 2] = Raise ValueError.
Proof.
  apply (get_rsquare_length_mismatch [Finite 1; Finite 2; Finite 3]
                                     [Finite 1; Finite 2]);
    simpl; lia.
Defined.

(** A one-entry fit is broadcast over the observations: it scores exactly
    like the constant fit of that value. *)
Theorem get_rsquare_broadcast (ydata : list npfloat) (c : npfloat) :
  get_rsquare ydata [c] = get_rsquare ydata (map (fun _ => c) ydata).
Proof.
  unfold get_rsquare. f_equal.
  assert (E : np_broadcast2 fsub ydata [c]
              = np_broadcast2 fsub ydata (map (fun _ => c) ydata)).
  { rewrite (np_broadcast2_same fsub ydata (map (fun _ => c) ydata))
      by now rewrite length_map.
    assert (Hm : map (fun ab : npfloat * npfloat => fsub (fst ab) (snd ab))
                     (combine ydata (map (fun _ => c) ydata))
                 = map (fun x => fsub x c) ydata).
    { clear. induction ydata as [|u a IH]; simpl; [reflexivity|]. now rewrite IH. }
    rewrite Hm. unfold np_broadcast2.
    destruct ydata as [|u [|u' a]]; reflexivity. }
  now rewrite E.
Qed.

(* ================================================================= *)
(** * LineshapeModels: further properties                             *)
(* ================================================================= *)

(** The two Lorentzians are one function of four parameters; they part
    on longer vectors, where [lorfunc] ignores the extra entries and
    [lorfunc_better] refuses the call. *)
Theorem lorfunc_conventions (p extra : list R) (x : nd) :
  length p = 4%nat ->
  lorfunc p x = lorfunc_better x p
  /\ lorfunc (p ++ extra) x = lorfunc p x
  /\ (extra <> [] -> lorfunc_better x (p ++ extra) = Raise TypeError).
Proof.
  intros Hlen.
  destruct p as [|o [|a [|c [|h [|z p]]]]]; simpl in Hlen; try lia.
  repeat split. intros Hne. destruct extra; [contradiction|reflexivity].
Qed.

Lemma lorfunc_conventions_witness :
  lorfunc [5; 3; 4; 1] (Scalar 4) = lorfunc_better (Scalar 4) [5; 3; 4; 1]
  /\ lorfunc ([5; 3; 4; 1] ++ [9]) (Scalar 4) = lorfunc [5; 3; 4; 1] (Scalar 4)
  /\ ([9] <> [] -> lorfunc_better (Scalar 4) ([5; 3; 4; 1] ++ [9]) = Raise TypeError).
Proof.
  apply (lorfunc_conventions [5; 3; 4; 1] [9] (Scalar 4)). reflexivity.
Defined.

Lemma lorentzian_sign (o a c h h' : R) (x : nd) :
  h' ^ 2 = h ^ 2 ->
  lorfunc_better x [o; a; c; h'] = lorfunc_better x [o; a; c; h].
Proof.
  intros E. unfold lorfunc_better, nd_pow. cbn [nd_map]. now rewrite E.
Qed.

(** Shape of the Lorentzian for a non-zero width: [offset + amplitude] at
    the centre, [offset + amplitude/2] one half-width to either side, and
    the same curve for [hwhm], [-hwhm] and [|hwhm|]. *)
Theorem lorentzian_half_width (offset amplitude center hwhm : R) :
  hwhm <> 0 ->
  lorfunc_better (Scalar center) [offset; amplitude; center; hwhm]
  = Ok (Scalar (offset + amplitude))
  /\ lorfunc_better (Scalar (center + hwhm)) [offset; amplitude; center; hwhm]
     = Ok (Scalar (offset + amplitude / 2))
  /\ lorfunc_better (Scalar (center - hwhm)) [offset; amplitude; center; hwhm]
     = Ok (Scalar (offset + amplitude / 2))
  /\ forall x : nd,
       lorfunc_better x [offset; amplitude; center; - hwhm]
       = lorfunc_better x [offset; amplitude; center; hwhm]
       /\ lorfunc_better x [offset; amplitude; center; Rabs hwhm]
          = lorfunc_better x [offset; amplitude; center; hwhm].
Proof.
  intros Hh.
  assert (Hsq : 0 < hwhm * hwhm) by (apply (Rsqr_pos_lt hwhm Hh)).
  repeat split.
  - simpl. do 2 f_equal. field. split; [exact Hh|nra].
  - simpl. do 2 f_equal. field. split; [exact Hh|nra].
  - simpl. do 2 f_equal. field. split; [exact Hh|nra].
  - apply lorentzian_sign. ring.
  - apply lorentzian_sign. apply pow2_abs.
Qed.

Lemma lorentzian_half_width_witness :
  lorfunc_better (Scalar 4) [5; 3; 4; 1 / 2] = Ok (Scalar (5 + 3))
  /\ lorfunc_better (Scalar (4 + 1 / 2)) [5; 3; 4; 1 / 2] = Ok (Scalar (5 + 3 / 2))
  /\ lorfunc_better (Scalar (4 - 1 / 2)) [5; 3; 4; 1 / 2] = Ok (Scalar (5 + 3 / 2))
  /\ forall x : nd,
       lorfunc_better x [5; 3; 4; - (1 / 2)] = lorfunc_better x [5; 3; 4; 1 / 2]
       /\ lorfunc_better x [5; 3; 4; Rabs (1 / 2)] = lorfunc_better x [5; 3; 4; 1 / 2].
Proof. apply (lorentzian_half_width 5 3 4 (1 / 2)). lra. Defined.

(** For non-zero widths the two-peak model is the sum of two single
    Lorentzians that share the offset. *)
Theorem twolorfunc_sum (o a1 c1 h1 a2 c2 h2 x : R) :
  h1 <> 0 -> h2 <> 0 ->
  exists u v,
    lorfunc [o; a1; c1; h1] (Scalar x) = Ok (Scalar u)
    /\ lorfunc [0; a2; c2; h2] (Scalar x) = Ok (Scalar v)
    /\ twolorfunc [o; a1; c1; h1; a2; c2; h2] (Scalar x) = Ok (Scalar (u + v)).
Proof.
  intros _ _.
  exists (o + a1 / (1 + (x - c1) ^ 2 / h1 ^ 2)),
         (0 + a2 / (1 + (x - c2) ^ 2 / h2 ^ 2)).
  split; [reflexivity|]. split; [reflexivity|].
  unfold twolorfunc. simpl. do 2 f_equal. ring.
Qed.

Lemma twolorfunc_sum_witness :
  exists u v,
    lorfunc [5; 3; 4; 1] (Scalar 2) = Ok (Scalar u)
    /\ lorfunc [0; 2; 6; 2] (Scalar 2) = Ok (Scalar v)
    /\ twolorfunc [5; 3; 4; 1; 2; 6; 2] (Scalar 2) = Ok (Scalar (u + v)).
Proof. apply (twolorfunc_sum 5 3 4 1 2 6 2 2); lra. Defined.

(** For a non-zero sigma the single Gaussian is
    [offset + A·exp(−0.5·((x−c)/σ)²)]; it is the one-peak N-Gaussian, and
    it is its offset plus the offset-free Gaussian of the remaining three
    parameters (which [fitgauss] relies on when it drops [fitparams[0]]). *)
Theorem gaussian_family (o a c s : R) (x : nd) :
  s <> 0 ->
  (forall r : R, gaussfunc [o; a; c; s] (Scalar r) = Ok (Scalar (o + gauss_term a c s r)))
  /\ gaussfunc [o; a; c; s] x = Ngaussfunc [o; a; c; s] x
  /\ gaussfunc [o; a; c; s] x
     = (g <- gaussfunc_nooffset [a; c; s] x ;; Ok (nd_add (Scalar o) g))%res.
Proof.
  intros _. split; [|split; reflexivity].
  intros r. unfold gaussfunc. cbn [getitem nth_error rbind].
  unfold nd_add, nd_mul, nd_sub, nd_div, nd_pow, nd_e_pow. cbn [nd_map nd_map2].
  rewrite e_pow_exp, gauss_exponent. reflexivity.
Qed.

Lemma gaussian_family_witness :
  (forall r : R, gaussfunc [5; 3; 4; 2] (Scalar r) = Ok (Scalar (5 + gauss_term 3 4 2 r)))
  /\ gaussfunc [5; 3; 4; 2] (Scalar 1) = Ngaussfunc [5; 3; 4; 2] (Scalar 1)
  /\ gaussfunc [5; 3; 4; 2] (Scalar 1)
     = (g <- gaussfunc_nooffset [3; 4; 2] (Scalar 1) ;; Ok (nd_add (Scalar 5) g))%res.
Proof. apply (gaussian_family 5 3 4 2 (Scalar 1)). lra. Defined.

Lemma peak_count_fits (p0 : R) (rest : list R) :
  (3 * peak_count (p0 :: rest) <= length rest)%nat.
Proof.
  unfold peak_count. cbn [length].
  replace (Z.of_nat (S (length rest)) - 1)%Z with (Z.of_nat (length rest)) by lia.
  rewrite Z.quot_div_nonneg by lia.
  pose proof (Z.mul_div_le (Z.of_nat (length rest)) 3 ltac:(lia)).
  assert (0 <= Z.of_nat (length rest) / 3)%Z by (apply Z.div_pos; lia).
  lia.
Qed.

Lemma Ngaussfunc_general (p0 : R) (rest : list R) (x : R) :
  Ngaussfunc (p0 :: rest) (Scalar x)
  = Ok (Scalar (p0 + gauss_sum (triples (peak_count (p0 :: rest)) rest) x))
  /\ Ngaussfunc_no_offset (p0 :: rest) (Scalar x)
     = Ok (Scalar (0 + gauss_sum (triples (peak_count (p0 :: rest)) rest) x))
  /\ Ngaussfunc [] (Scalar x) = Raise IndexError
  /\ Ngaussfunc_no_offset [] (Scalar x) = Ok (Scalar 0).
Proof.
  pose proof (peak_count_fits p0 rest) as Hfit.
  repeat split.
  - unfold Ngaussfunc. cbn [getitem nth_error rbind].
    rewrite Ngauss_loop by (simpl; lia). reflexivity.
  - unfold Ngaussfunc_no_offset.
    rewrite Ngauss_loop by (simpl; lia). reflexivity.
Qed.

(** A vector of any length is accepted: with [N = int((len(p)-1)/3)]
    and every sigma that is read non-zero, the offset model returns
    [p[0]] plus the [N] Gaussians read from [p[1:]] (the empty vector
    raises [IndexError]), and the offset-free model returns those same
    [N] Gaussians -- the offset model with [p[0]] left out. *)
Theorem Ngaussfunc_any_length (p0 : R) (rest : list R) (x : R) :
  Forall (fun t : R * R * R => snd t <> 0) (triples (peak_count (p0 :: rest)) rest) ->
  Ngaussfunc (p0 :: rest) (Scalar x)
  = Ok (Scalar (p0 + gauss_sum (triples (peak_count (p0 :: rest)) rest) x))
  /\ Ngaussfunc_no_offset (p0 :: rest) (Scalar x)
     = Ok (Scalar (0 + gauss_sum (triples (peak_count (p0 :: rest)) rest) x))
  /\ Ngaussfunc [] (Scalar x) = Raise IndexError
  /\ Ngaussfunc_no_offset [] (Scalar x) = Ok (Scalar 0).
Proof.
  intros _.
  destruct (Ngaussfunc_general p0 rest x) as (E1 & E2 & E3 & E4).
  split; [exact E1|]. split; [exact E2|]. split; [exact E3|exact E4].
Qed.

Lemma Ngaussfunc_any_length_witness :
  Ngaussfunc (7 :: [2; 0; 1; 9]) (Scalar 0)
  = Ok (Scalar (7 + gauss_sum (triples (peak_count (7 :: [2; 0; 1; 9])) [2; 0; 1; 9]) 0))
  /\ Ngaussfunc_no_offset (7 :: [2; 0; 1; 9]) (Scalar 0)
     = Ok (Scalar (0 + gauss_sum (triples (peak_count (7 :: [2; 0; 1; 9]))
                                         [2; 0; 1; 9]) 0))
  /\ Ngaussfunc [] (Scalar 0) = Raise IndexError
  /\ Ngaussfunc_no_offset [] (Scalar 0) = Ok (Scalar 0).
Proof.
  apply (Ngaussfunc_any_length 7 [2; 0; 1; 9] 0).
  repeat constructor. simpl. lra.
Defined.

Lemma triples_prefix (N : nat) :
  forall rest extra : list R,
    length rest = (3 * N)%nat -> triples N (rest ++ extra) = triples N rest.
Proof.
  induction N as [|N IH]; intros rest extra Hlen.
  - destruct rest; [|discriminate]. now destruct extra.
  - destruct rest as [|a [|c [|s rest]]]; simpl in Hlen; try lia.
    simpl. f_equal. apply IH. lia.
Qed.

(** Up to two entries past the last full triple are ignored without any
    error: the vector is not checked against the shape [3N+1]. *)
Theorem Ngaussfunc_ignores_tail (p0 : R) (rest extra : list R) (N : nat) (x : R) :
  length rest = (3 * N)%nat -> (length extra < 3)%nat ->
  Ngaussfunc (p0 :: rest ++ extra) (Scalar x) = Ngaussfunc (p0 :: rest) (Scalar x).
Proof.
  intros Hlen Hextra.
  destruct (Ngaussfunc_general p0 (rest ++ extra) x) as (E1 & _).
  destruct (Ngaussfunc_general p0 rest x) as (E2 & _).
  rewrite E1, E2.
  assert (Hn : peak_count (p0 :: rest ++ extra) = N).
  { unfold peak_count. cbn [length]. rewrite length_app, Hlen.
    replace (Z.of_nat (S (3 * N + length extra)) - 1)%Z
      with (3 * Z.of_nat N + Z.of_nat (length extra))%Z by lia.
    rewrite <- (Z.quot_unique (3 * Z.of_nat N + Z.of_nat (length extra)) 3
                  (Z.of_nat N) (Z.of_nat (length extra))) by lia.
    apply Nat2Z.id. }
  rewrite Hn, (peak_count_offset (p0 :: rest) N) by (simpl; lia).
  now rewrite triples_prefix.
Qed.

Lemma Ngaussfunc_ignores_tail_witness :
  Ngaussfunc (7 :: [2; 0; 1] ++ [9; 9]) (Scalar 0) = Ngaussfunc (7 :: [2; 0; 1]) (Scalar 0).
Proof.
  apply (Ngaussfunc_ignores_tail 7 [2; 0; 1] [9; 9] 1 0); simpl; lia.
Defined.

(** Only a vector of exactly three entries supplies [Tc]: with two
    entries, or with four or more (whose third entry is then ignored),
    [kinfunc] takes [Tc = 1.2] and prints the assumption, and, away from
    the pole [(x/1.2)^4 = 1], evaluates the formula with it; with fewer
    than two entries it raises [IndexError] before printing anything. *)
Theorem kinfunc_other_lengths (f0 alpha : R) (rest : list R) (x : nd) :
  length rest <> 1%nat -> kin_defined (12 / 10) x ->
  kinfunc (f0 :: alpha :: rest) x
  = ([Print "Assuming Tc = 1.20 K"],
     Ok (nd_map (kinetic_formula f0 alpha (12 / 10)) x))
  /\ kinfunc [f0] x = ([], Raise IndexError)
  /\ kinfunc [] x = ([], Raise IndexError).
Proof.
  intros Hlen Hd. split; [|split; reflexivity].
  now apply kinfunc_default_Tc.
Qed.

Lemma kinfunc_other_lengths_witness :
  kinfunc (5 :: 1 :: [9; 9]) (Scalar 0)
  = ([Print "Assuming Tc = 1.20 K"],
     Ok (nd_map (kinetic_formula 5 1 (12 / 10)) (Scalar 0)))
  /\ kinfunc [5] (Scalar 0) = ([], Raise IndexError)
  /\ kinfunc [] (Scalar 0) = ([], Raise IndexError).
Proof.
  apply (kinfunc_other_lengths 5 1 [9; 9] (Scalar 0)).
  - simpl. lia.
  - split; lra.
Defined.

(** The order-9 model is the arbitrary-order polynomial of its first ten
    entries, evaluated at [x - p[-1]].  With exactly ten entries [p[-1]]
    is [p[9]], so the last coefficient doubles as the centre; with fewer
    the call raises [IndexError]. *)
Theorem polynomial_is_shifted_polyfunc (p : list R) (x : R) :
  (10 <= length p)%nat ->
  exists c,
    getlast p = Ok c
    /\ (length p = 10%nat -> nth_error p 9 = Some c)
    /\ polynomial p (Scalar x) = Ok (polyfunc (firstn 10 p) (Scalar (x - c))).
Proof.
  intros Hlen.
  destruct p as [|a0 [|a1 [|a2 [|a3 [|a4 [|a5 [|a6 [|a7 [|a8 [|a9 rest]]]]]]]]]];
    simpl in Hlen; try lia.
  set (p := a0 :: a1 :: a2 :: a3 :: a4 :: a5 :: a6 :: a7 :: a8 :: a9 :: rest).
  assert (Hc : exists c, getlast p = Ok c) by (eexists; reflexivity).
  destruct Hc as [c Hc]. exists c. split; [exact Hc|]. split.
  - intros H10. subst p. destruct rest; [|simpl in H10; lia].
    simpl in Hc. injection Hc as <-. reflexivity.
  - rewrite polyfunc_horner. unfold polynomial. rewrite Hc. subst p.
    cbn [getitem nth_error rbind firstn].
    unfold nd_add, nd_mul, nd_sub, nd_pow. cbn [nd_map nd_map2].
    do 2 f_equal. unfold horner. cbn [fold_right]. ring.
Qed.

Lemma polynomial_is_shifted_polyfunc_witness :
  exists c,
    getlast [1; 2; 3; 4; 5; 6; 7; 8; 9; 10; 11] = Ok c
    /\ (length [1; 2; 3; 4; 5; 6; 7; 8; 9; 10; 11] = 10%nat
        -> nth_error [1; 2; 3; 4; 5; 6; 7; 8; 9; 10; 11] 9 = Some c)
    /\ polynomial [1; 2; 3; 4; 5; 6; 7; 8; 9; 10; 11] (Scalar 2)
       = Ok (polyfunc (firstn 10 [1; 2; 3; 4; 5; 6; 7; 8; 9; 10; 11]) (Scalar (2 - c))).
Proof.
  apply (polynomial_is_shifted_polyfunc [1; 2; 3; 4; 5; 6; 7; 8; 9; 10; 11] 2).
  simpl. lia.
Defined.

Lemma combine_map_same {A B C} (f : A -> B) (g : A -> C) (l : list A) :
  combine (map f l) (map g l) = map (fun a => (f a, g a)) l.
Proof. induction l as [|a l IH]; simpl; [reflexivity|]. now rewrite IH. Qed.

Lemma poly_step_array (xs : list R) (f : R -> R) (a : R) (k : nat) :
  (Arr (map f xs) + Scalar a * Arr xs ** k)%nd
  = Arr (map (fun x => f x + a * x ^ k) xs).
Proof.
  unfold nd_add, nd_mul, nd_pow. cbn [nd_map nd_map2].
  rewrite map_map, combine_map_same, map_map. reflexivity.
Qed.

Lemma poly_loop_array (xs : list R) (p : list R) :
  forall (k : nat) (f : R -> R),
    fold_left (fun (y : nd) (nP : nat * R) =>
                 (y + Scalar (snd nP) * Arr xs ** (fst nP))%nd)
              (combine (seq k (length p)) p) (Arr (map f xs))
    = Arr (map (fun x => f x + x ^ k * horner p x) xs).
Proof.
  induction p as [|a p IH]; intros k f.
  - simpl. f_equal. apply map_ext. intros x. ring.
  - cbn [length seq combine fold_left fst snd].
    rewrite poly_step_array, IH. f_equal. apply map_ext. intros x. simpl. ring.
Qed.

(** On an array of x values a non-empty coefficient vector gives the
    polynomial entry by entry; the empty vector gives the bare scalar 0,
    not an array of zeros. *)
Theorem polyfunc_on_arrays (a : R) (p : list R) (xs : list R) :
  polyfunc (a :: p) (Arr xs) = Arr (map (horner (a :: p)) xs)
  /\ polyfunc_v2 (Arr xs) (a :: p) = Arr (map (horner (a :: p)) xs)
  /\ polyfunc [] (Arr xs) = Scalar 0.
Proof.
  assert (E : polyfunc (a :: p) (Arr xs) = Arr (map (horner (a :: p)) xs)).
  { unfold polyfunc, enumerate. cbn [length seq combine fold_left fst snd].
    assert (E0 : (Scalar 0 + Scalar a * Arr xs ** 0)%nd
                 = Arr (map (fun x => 0 + a * x ^ 0) xs)).
    { unfold nd_add, nd_mul, nd_pow. cbn [nd_map nd_map2].
      now rewrite !map_map. }
    rewrite E0, poly_loop_array. f_equal. apply map_ext. intros x. simpl. ring. }
  repeat split; exact E.
Qed.

(** The parabola [a0 + a1 (x - a2)^2] is the polynomial with coefficients
    [a0 + a1 a2^2, -2 a1 a2, a1]; its value at the vertex [x = a2] is
    [a0]. *)
Theorem parabola_as_polynomial (a0 a1 a2 x : R) :
  parabolafunc (Scalar x) [a0; a1; a2]
  = Ok (polyfunc [a0 + a1 * a2 ^ 2; - 2 * a1 * a2; a1] (Scalar x))
  /\ parabolafunc (Scalar a2) [a0; a1; a2] = Ok (Scalar a0).
Proof.
  split.
  - rewrite polyfunc_horner. unfold parabolafunc. simpl. do 2 f_equal. ring.
  - unfold parabolafunc. simpl. do 2 f_equal. ring.
Qed.

(** The reference time of the decaying sine is not an independent
    parameter: for a non-zero [tau], shifting [t0] to 0 is undone by
    scaling the amplitude by [exp(t0/tau)]. *)
Theorem decaysin_t0_is_amplitude (A f phi tau off t0 x : R) :
  tau <> 0 ->
  decaysin [A; f; phi; tau; off; t0] (Scalar x)
  = decaysin [A * exp (t0 / tau); f; phi; tau; off; 0] (Scalar x).
Proof.
  intros Htau. unfold decaysin. simpl. do 2 f_equal.
  rewrite !e_pow_exp.
  replace (-1 * (x - t0) / tau) with (t0 / tau + -1 * (x - 0) / tau)
    by (field; exact Htau).
  rewrite exp_plus. ring.
Qed.

Lemma decaysin_t0_is_amplitude_witness :
  decaysin [2; 1; 0; 3; 1; 6] (Scalar 4)
  = decaysin [2 * exp (6 / 3); 1; 0; 3; 1; 0] (Scalar 4).
Proof. apply (decaysin_t0_is_amplitude 2 1 0 3 1 6 4). lra. Defined.

(** Fano lineshape with a non-zero width: [scale * q^2] on resonance,
    and exactly zero at [x = w0 - q * fwhm / 2]. *)
Theorem fano_resonance_and_zero (w0 fwhm q scale : R) :
  fwhm <> 0 ->
  fano_func (Scalar w0) [w0; fwhm; q; scale] = Ok (Scalar (scale * q ^ 2))
  /\ fano_func (Scalar (w0 - q * fwhm / 2)) [w0; fwhm; q; scale] = Ok (Scalar 0).
Proof.
  intros Hw.
  assert (Hsq : 0 < fwhm * fwhm) by (apply (Rsqr_pos_lt fwhm Hw)).
  split; unfold fano_func; simpl; do 2 f_equal.
  - field. nra.
  - unfold Rdiv at 1.
    replace (q * fwhm / 2 + (w0 - q * fwhm / 2 - w0)) with 0 by field.
    ring.
Qed.

Lemma fano_resonance_and_zero_witness :
  fano_func (Scalar 4) [4; 2; 3; 5] = Ok (Scalar (5 * 3 ^ 2))
  /\ fano_func (Scalar (4 - 3 * 2 / 2)) [4; 2; 3; 5] = Ok (Scalar 0).
Proof. apply (fano_resonance_and_zero 4 2 3 5). lra. Defined.

(** Hanger lineshape: the parameter vector must have exactly five
    entries; for a symmetric resonance ([df = 0]) the value on resonance
    is [scale * (Qc / (Qi + Qc))^2]. *)
Theorem hanger_on_resonance (f0 Qi Qc scale : R) (p : list R) (x : nd) :
  f0 <> 0 -> Qi <> 0 -> Qc <> 0 -> Qi + Qc <> 0 ->
  hangerfunc [f0; Qi; Qc; 0; scale] (Scalar f0)
  = Ok (Scalar (scale * (Qc / (Qi + Qc)) ^ 2))
  /\ (length p <> 5%nat -> hangerfunc p x = Raise ValueError).
Proof.
  intros Hf HQi HQc Hsum. split.
  - unfold hangerfunc. simpl. do 2 f_equal. field. repeat split; try assumption.
    replace ((Qc + Qi) * (Qc + Qi) * (f0 * f0)
             + 4 * (Qi * Qc * (Qi * Qc)) * ((f0 - f0) * (f0 - f0)))
      with (((Qi + Qc) * f0) * ((Qi + Qc) * f0)) by ring.
    apply Rmult_integral_contrapositive_currified;
      apply Rmult_integral_contrapositive_currified; assumption.
  - intros Hlen.
    destruct p as [|a [|b [|c [|d [|e [|g p]]]]]]; simpl in Hlen;
      try reflexivity; lia.
Qed.

Lemma hanger_on_resonance_witness :
  hangerfunc [6; 1; 3; 0; 2] (Scalar 6) = Ok (Scalar (2 * (3 / (1 + 3)) ^ 2))
  /\ (length [1; 2; 3] <> 5%nat -> hangerfunc [1; 2; 3] (Scalar 0) = Raise ValueError).
Proof. apply (hanger_on_resonance 6 1 3 2 [1; 2; 3] (Scalar 0)); lra. Defined.

(* ================================================================= *)
(** * Engines and wrappers: further properties                        *)
(* ================================================================= *)

Lemma bind_outcome_Raise {A B} (m : M A) (k : A -> M B) (e : pyexn) :
  outcome m = Raise e -> outcome (bind m k) = Raise e.
Proof. unfold outcome, bind. now intros ->. Qed.

Lemma bind_outcome_step {A B} (m : M A) (k : A -> M B) (a : A) :
  outcome m = Ok a -> outcome (bind m k) = outcome (k a).
Proof. unfold outcome, bind. now intros ->. Qed.

(** The start curve of [fitexp]: with [fitparams] omitted the optimizer is
    started from [y[-1], y[0] - y[-1], x[0], (x[-1] - x[0])/5]; when the
    data span is not zero that exponential passes through the first data
    point and has decayed by [exp(-5)] at the last x. *)
Theorem fitexp_start_curve
    (leastsq : (list R -> M nd) -> list R -> M (list R * Z))
    (xdata ydata : list R) (domain : option (R * R)) (po : plotargs)
    (x0 xl y0 yl : R) :
  let fx := fst (restrict xdata ydata domain) in
  let fy := snd (restrict xdata ydata domain) in
  nth_error fx 0 = Some x0 -> getlast fx = Ok xl ->
  nth_error fy 0 = Some y0 -> getlast fy = Ok yl -> xl <> x0 ->
  let guess := [yl; y0 - yl; x0; (xl - x0) / 5] in
  first_start (log (fitexp leastsq xdata ydata None domain po)) = Some guess
  /\ expfunc guess (Scalar x0) = Ok (Scalar y0)
  /\ expfunc guess (Scalar xl) = Ok (Scalar (yl + (y0 - yl) * exp (- 5))).
Proof.
  intros fx fy Hx0 Hxl Hy0 Hyl Hspan guess. repeat split.
  - unfold fitexp. cbv zeta. fold fx fy. unfold getitem.
    rewrite Hyl, Hy0, Hx0, Hxl. reflexivity.
  - unfold expfunc, guess. simpl. do 2 f_equal. rewrite e_pow_exp.
    replace (- (x0 - x0) / ((xl - x0) / 5)) with 0 by (field; lra).
    rewrite exp_0. ring.
  - unfold expfunc, guess. simpl. do 2 f_equal. rewrite e_pow_exp.
    replace (- (xl - x0) / ((xl - x0) / 5)) with (- 5) by (field; lra).
    reflexivity.
Qed.

Lemma fitexp_start_curve_witness :
  let guess := [1; 9 - 1; 0; (10 - 0) / 5] in
  first_start (log (fitexp (leastsq_returning [1; 8; 0; 2])
                           [0; 5; 10] [9; 2; 1] None None quiet)) = Some guess
  /\ expfunc guess (Scalar 0) = Ok (Scalar 9)
  /\ expfunc guess (Scalar 10) = Ok (Scalar (1 + (9 - 1) * exp (- 5))).
Proof.
  apply (fitexp_start_curve (leastsq_returning [1; 8; 0; 2])
           [0; 5; 10] [9; 2; 1] None quiet 0 10 9 1);
    try reflexivity. simpl. lra.
Defined.

(** With [showfit=True] the legacy engine never returns: once the
    optimizer has run, the plotting code names [plt], which the module
    never binds, and the fit is lost to a [NameError]. *)
Theorem fitgeneral_showfit_never_returns
    (leastsq : (list R -> M nd) -> list R -> M (list R * Z))
    (xdata ydata : list R) (fitfunc : list R -> nd -> M nd) (p0 : list R)
    (domain : option (R * R)) (po : plotargs) (show_diagnostics : bool) :
  showfit po = true ->
  let run := fitgeneral leastsq xdata ydata fitfunc (Some p0) domain po
                        show_diagnostics in
  fit_attempted run = true
  /\ (forall r, outcome run <> Ok r)
  /\ (forall fit, outcome (leastsq
                    (fun p => bind (fitfunc p (Arr (fst (restrict xdata ydata domain))))
                                (fun v => lift (nd_sub_checked v
                                   (Arr (snd (restrict xdata ydata domain))))))
                    p0) = Ok fit
      -> outcome run = Raise NameError).
Proof.
  intros Hshow run. subst run. unfold fitgeneral. cbv zeta.
  set (ef := fun p : list R =>
               bind (fitfunc p (Arr (fst (restrict xdata ydata domain))))
                    (fun v => lift (nd_sub_checked v
                                (Arr (snd (restrict xdata ydata domain)))))).
  rewrite Hshow. repeat split.
  - intros r H.
    unfold outcome, bind, ret, tell, when, raise in H. cbn [fst snd] in H.
    destruct (snd (leastsq ef p0)); discriminate.
  - intros fit Hfit.
    unfold outcome, bind, ret, tell, when, raise in *. cbn [fst snd].
    rewrite Hfit. reflexivity.
Qed.

Lemma fitgeneral_showfit_never_returns_witness :
  let po := {| showfit := true; showstartfit := false; showdata := true;
               label := ""; mark_data := "bo"; mark_fit := "r-" |} in
  let run := fitgeneral (leastsq_returning [1; 2]) [0; 1] [1; 3]
                        (fun p x => ret (polyfunc p x)) (Some [0; 0]) None po false in
  fit_attempted run = true
  /\ (forall r, outcome run <> Ok r)
  /\ (forall fit, outcome (leastsq_returning [1; 2]
                    (fun p => bind ((fun p x => ret (polyfunc p x)) p
                                      (Arr (fst (restrict [0; 1] [1; 3] None))))
                                (fun v => lift (nd_sub_checked v
                                   (Arr (snd (restrict [0; 1] [1; 3] None))))))
                    [0; 0]) = Ok fit
      -> outcome run = Raise NameError).
Proof.
  apply (fitgeneral_showfit_never_returns (leastsq_returning [1; 2]) [0; 1] [1; 3]
           (fun p x => ret (polyfunc p x)) [0; 0] None
           {| showfit := true; showstartfit := false; showdata := true;
              label := ""; mark_data := "bo"; mark_fit := "r-" |} false).
  reflexivity.
Defined.

(** Whenever the optimizer hands back a 2-d covariance, [fitbetter]
    converts it without complaint: the diagnostics are the entry-wise
    square roots of its diagonal and no message is printed.  A negative
    variance becomes nan and an infinite one stays infinite, silently. *)
Theorem fitbetter_matrix_covariance
    (curve_fit : (nd -> list R -> M nd) -> list R -> list R -> list R
                 -> M (list R * covariance))
    (best : list R) (m : list (list npfloat)) (l0 : list event)
    (xdata ydata p0 : list R) (f : nd -> list R -> M nd) (po : plotargs) :
  curve_fit f xdata ydata p0 = (l0, Ok (best, CovMatrix m)) ->
  showfit po = false ->
  fitbetter curve_fit xdata ydata f p0 None po true
  = (CallCurveFit f xdata ydata p0 :: l0,
     Ok (BetDiag best (map np_sqrt (diag_from 0 m))))
  /\ (forall v, v < 0 -> np_sqrt (Finite v) = NaN)
  /\ np_sqrt PosInf = PosInf.
Proof.
  intros Hfit Hshow. repeat split.
  - unfold fitbetter, bind, tell, ret, raise, when.
    cbn [restrict fst snd]. rewrite Hfit. cbn [fst snd np_diag].
    rewrite Hshow. cbn [fst snd app]. rewrite !app_nil_r. reflexivity.
  - intros v Hv. unfold np_sqrt. destruct (Rlt_dec v 0); [reflexivity|lra].
Qed.

Lemma fitbetter_matrix_covariance_witness :
  fitbetter (curve_fit_returning [2; 3] (CovMatrix [[Finite 4; Finite 0];
                                                    [Finite 0; Finite (- 1)]]))
            [0; 1; 2] [2; 5; 8] (fun x p => ret (polyfunc_v2 x p)) [0; 0] None quiet true
  = (CallCurveFit (fun x p => ret (polyfunc_v2 x p)) [0; 1; 2] [2; 5; 8] [0; 0] :: [],
     Ok (BetDiag [2; 3] (map np_sqrt (diag_from 0 [[Finite 4; Finite 0];
                                                   [Finite 0; Finite (- 1)]]))))
  /\ (forall v, v < 0 -> np_sqrt (Finite v) = NaN)
  /\ np_sqrt PosInf = PosInf.
Proof.
  apply (fitbetter_matrix_covariance
           (curve_fit_returning [2; 3] (CovMatrix [[Finite 4; Finite 0];
                                                   [Finite 0; Finite (- 1)]]))
           [2; 3] [[Finite 4; Finite 0]; [Finite 0; Finite (- 1)]] []
           [0; 1; 2] [2; 5; 8] [0; 0] (fun x p => ret (polyfunc_v2 x p)) quiet);
    reflexivity.
Defined.

(** With plotting on and a non-empty label [fitbetter] never returns: it
    ends in an exception, at the latest the [NameError] of the legend
    call, which names the unbound [plt]. *)
Theorem fitbetter_label_never_returns
    (curve_fit : (nd -> list R -> M nd) -> list R -> list R -> list R
                 -> M (list R * covariance))
    (xdata ydata p0 : list R) (f : nd -> list R -> M nd)
    (domain : option (R * R)) (po : plotargs) (show_diagnostics : bool) :
  showfit po = true -> label po <> ""%string ->
  exists e,
    outcome (fitbetter curve_fit xdata ydata f p0 domain po show_diagnostics)
    = Raise e.
Proof.
  intros Hshow Hlabel.
  destruct (outcome (fitbetter curve_fit xdata ydata f p0 domain po show_diagnostics))
    as [r|e] eqn:H; [exfalso|now exists e].
  unfold fitbetter in H. cbv zeta in H.
  apply bind_outcome_Ok in H. destruct H as (u1 & Hu1 & H).
  apply bind_outcome_Ok in H. destruct H as (fit & Hfit & H).
  apply bind_outcome_Ok in H. destruct H as (errs & Herrs & H).
  apply bind_outcome_Ok in H. destruct H as (u2 & Hplot & Hret).
  rewrite Hshow in Hplot. unfold when at 1 in Hplot.
  apply bind_outcome_Ok in Hplot. destruct Hplot as (u3 & Hu3 & Hplot).
  apply bind_outcome_Ok in Hplot. destruct Hplot as (u4 & Hu4 & Hplot).
  apply bind_outcome_Ok in Hplot. destruct Hplot as (v & Hv & Hplot).
  apply bind_outcome_Ok in Hplot. destruct Hplot as (u5 & Hu5 & Hplot).
  unfold when in Hplot.
  destruct (String.eqb (label po) "") eqn:E.
  - apply String.eqb_eq in E. contradiction.
  - discriminate.
Qed.

Lemma fitbetter_label_never_returns_witness :
  exists e,
    outcome (fitbetter (curve_fit_returning [2; 3] CovInf) [0; 1] [2; 5]
               (fun x p => ret (polyfunc_v2 x p)) [0; 0] None
               {| showfit := true; showstartfit := false; showdata := true;
                  label := "run"; mark_data := "bo"; mark_fit := "r-" |} false)
    = Raise e.
Proof.
  apply (fitbetter_label_never_returns (curve_fit_returning [2; 3] CovInf)
           [0; 1] [2; 5] [0; 0] (fun x p => ret (polyfunc_v2 x p)) None
           {| showfit := true; showstartfit := false; showdata := true;
              label := "run"; mark_data := "bo"; mark_fit := "r-" |} false).
  - reflexivity.
  - discriminate.
Defined.

(** The wrappers built on [fitbetter] always ask for diagnostics, so a
    covariance that [np.diag] refuses costs them the whole fit: [fitlor],
    [fitpoly] and [fit_parabola] end in [UnboundLocalError]. *)
Theorem wrappers_lose_fit_without_covariance
    (curve_fit : (nd -> list R -> M nd) -> list R -> list R -> list R
                 -> M (list R * covariance))
    (xdata ydata p : list R) (domain : option (R * R)) (po : plotargs)
    (debug verbose : bool) :
  (forall f xd yd p0, exists l best cov e,
      curve_fit f xd yd p0 = (l, Ok (best, cov)) /\ np_diag cov = Raise e) ->
  showfit po = false ->
  outcome (fitlor curve_fit xdata ydata (Some p) domain po debug verbose)
  = Raise UnboundLocalError
  /\ outcome (fitpoly curve_fit xdata ydata (Some p) domain po verbose)
     = Raise UnboundLocalError
  /\ outcome (fit_parabola curve_fit xdata ydata (Some p) domain po verbose)
     = Raise UnboundLocalError.
Proof.
  intros Hcf Hshow.
  assert (Hb : forall f xd yd p0,
             outcome (fitbetter curve_fit xd yd f p0 None po true)
             = Raise UnboundLocalError).
  { intros f xd yd p0.
    destruct (Hcf f xd yd p0) as (l & best & cov & e & Hfit & He).
    apply (fitbetter_unconvertible curve_fit best cov l xd yd p0 f po Hfit);
      [now exists e|exact Hshow]. }
  repeat split.
  - unfold fitlor. cbv zeta.
    rewrite bind_outcome_step with (a := p) by reflexivity.
    rewrite bind_outcome_step with (a := tt) by (destruct debug; reflexivity).
    apply bind_outcome_Raise, Hb.
  - unfold fitpoly. cbv zeta. apply bind_outcome_Raise, Hb.
  - unfold fit_parabola. cbv zeta. apply bind_outcome_Raise, Hb.
Qed.

Lemma wrappers_lose_fit_without_covariance_witness :
  outcome (fitlor (curve_fit_returning [5; 3; 4; 1] CovInf) [0; 1; 2] [5; 8; 5]
                  (Some [5; 3; 1; 1]) None quiet false false)
  = Raise UnboundLocalError
  /\ outcome (fitpoly (curve_fit_returning [5; 3; 4; 1] CovInf) [0; 1; 2] [5; 8; 5]
                      (Some [5; 3; 1; 1]) None quiet false)
     = Raise UnboundLocalError
  /\ outcome (fit_parabola (curve_fit_returning [5; 3; 4; 1] CovInf) [0; 1; 2]
                           [5; 8; 5] (Some [5; 3; 1; 1]) None quiet false)
     = Raise UnboundLocalError.
Proof.
  apply (wrappers_lose_fit_without_covariance
           (curve_fit_returning [5; 3; 4; 1] CovInf) [0; 1; 2] [5; 8; 5]
           [5; 3; 1; 1] None quiet false false).
  - intros f xd yd p0. exists [], [5; 3; 4; 1], CovInf, ValueError.
    split; reflexivity.
  - reflexivity.
Defined.


Lemma length_setitem {A} (l : list A) (i : nat) (v : A) :
  length (setitem l i v) = length l.
Proof.
  revert i. induction l as [|h t IH]; intros [|i]; simpl; try reflexivity.
  now rewrite IH.
Qed.

Lemma nth_error_setitem_other {A} (l : list A) (i j : nat) (v : A) :
  i <> j -> nth_error (setitem l i v) j = nth_error l j.
Proof.
  revert i j. induction l as [|h t IH]; intros [|i] [|j] H; simpl;
    try reflexivity; try congruence.
  apply IH. congruence.
Qed.

Lemma lorentzian_abs_width (best : list R) (w : R) (x : nd) :
  nth_error best 3 = Some w ->
  lorfunc_better x (setitem best 3 (Rabs w)) = lorfunc_better x best.
Proof.
  intros Hw.
  destruct best as [|o [|a [|c [|h rest]]]]; try discriminate.
  simpl in Hw. injection Hw as ->.
  destruct rest; [|reflexivity].
  cbn [setitem]. apply lorentzian_sign. apply pow2_abs.
Qed.

(** With diagnostics on, what [fitbetter] returns is what the optimizer
    returned: its parameters and the square roots of the diagonal of its
    covariance. *)
Lemma fitbetter_diag_inv
    (curve_fit : (nd -> list R -> M nd) -> list R -> list R -> list R
                 -> M (list R * covariance))
    (xdata ydata p0 : list R) (f : nd -> list R -> M nd) (po : plotargs)
    (r : fitbetter_ret) :
  outcome (fitbetter curve_fit xdata ydata f p0 None po true) = Ok r ->
  exists best cov d,
    outcome (curve_fit f xdata ydata p0) = Ok (best, cov)
    /\ np_diag cov = Ok d /\ r = BetDiag best (map np_sqrt d).
Proof.
  unfold fitbetter. cbv zeta. cbn [restrict fst snd]. intros H.
  apply bind_outcome_Ok in H. destruct H as (? & ? & H).
  apply bind_outcome_Ok in H. destruct H as ([best cov] & Hfit & H).
  cbn [fst snd] in H.
  apply bind_outcome_Ok in H. destruct H as (errs & Herrs & H).
  apply bind_outcome_Ok in H. destruct H as (? & ? & H).
  destruct errs as [errs|]; [|discriminate].
  injection H as <-.
  destruct (np_diag cov) as [d|e] eqn:Ed.
  - injection Herrs as <-. exists best, cov, d. repeat split; assumption.
  - discriminate.
Qed.

(** What [fitlor] returns, when it returns: the optimizer's parameter
    vector with entry 3 replaced by its absolute value and nothing else
    touched, together with the square roots of the covariance diagonal;
    the returned vector describes the same Lorentzian as the optimizer's. *)
Theorem fitlor_returns_same_curve
    (curve_fit : (nd -> list R -> M nd) -> list R -> list R -> list R
                 -> M (list R * covariance))
    (xdata ydata : list R) (fitparams : option (list R))
    (domain : option (R * R)) (po : plotargs) (debug verbose : bool)
    (p1 : list R) (p1_errors : list npfloat) :
  outcome (fitlor curve_fit xdata ydata fitparams domain po debug verbose)
  = Ok (p1, p1_errors) ->
  exists p0 best cov d,
    outcome (curve_fit (fun x p => lift (lorfunc_better x p))
                       (fst (restrict xdata ydata domain))
                       (snd (restrict xdata ydata domain)) p0) = Ok (best, cov)
    /\ np_diag cov = Ok d /\ p1_errors = map np_sqrt d
    /\ length p1 = length best
    /\ (exists w, nth_error best 3 = Some w /\ nth_error p1 3 = Some (Rabs w))
    /\ (forall i, i <> 3%nat -> nth_error p1 i = nth_error best i)
    /\ (forall x : nd, lorfunc_better x p1 = lorfunc_better x best).
Proof.
  unfold fitlor. cbv zeta. intros H.
  apply bind_outcome_Ok in H. destruct H as (p0 & Hp0 & H).
  apply bind_outcome_Ok in H. destruct H as (u1 & Hu1 & H).
  apply bind_outcome_Ok in H. destruct H as (r & Hr & H).
  apply fitbetter_diag_inv in Hr.
  destruct Hr as (best & cov & d & Hfit & Hd & ->).
  apply bind_outcome_Ok in H. destruct H as (u2 & Hu2 & H).
  destruct (nth_error best 3) as [w|] eqn:Hw; [|discriminate].
  injection H as <- <-.
  exists p0, best, cov, d.
  split; [assumption|]. split; [assumption|]. split; [reflexivity|].
  split; [apply length_setitem|]. split; [|split].
  - exists w. split; [exact Hw|]. apply (nth_error_setitem best 3 (Rabs w) w Hw).
  - intros i Hi. apply nth_error_setitem_other. congruence.
  - intros x0. now apply lorentzian_abs_width.
Qed.

Lemma fitlor_returns_same_curve_witness :
  exists p0 best cov d,
    outcome (curve_fit_returning [5; 3; 4; -1 / 2] (CovMatrix [])
               (fun x p => lift (lorfunc_better x p))
               (fst (restrict [0; 1; 2] [5; 8; 5] None))
               (snd (restrict [0; 1; 2] [5; 8; 5] None)) p0) = Ok (best, cov)
    /\ np_diag cov = Ok d /\ [] = map np_sqrt d
    /\ length (setitem [5; 3; 4; -1 / 2] 3 (Rabs (-1 / 2))) = length best
    /\ (exists w, nth_error best 3 = Some w
                  /\ nth_error (setitem [5; 3; 4; -1 / 2] 3 (Rabs (-1 / 2))) 3
                     = Some (Rabs w))
    /\ (forall i, i <> 3%nat ->
          nth_error (setitem [5; 3; 4; -1 / 2] 3 (Rabs (-1 / 2))) i = nth_error best i)
    /\ (forall x : nd,
          lorfunc_better x (setitem [5; 3; 4; -1 / 2] 3 (Rabs (-1 / 2)))
          = lorfunc_better x best).
Proof.
  apply (fitlor_returns_same_curve
           (curve_fit_returning [5; 3; 4; -1 / 2] (CovMatrix []))
           [0; 1; 2] [5; 8; 5] (Some [5; 3; 1; 1]) None quiet false false
           (setitem [5; 3; 4; -1 / 2] 3 (Rabs (-1 / 2))) []).
  reflexivity.
Defined.
